(** * Company-record ingestion and website search: a shallow embedding

    The development follows the two Python modules of the repository:

    - [src/webscraper/search.py]: [CompanySearcher] with its domain filter
      [_is_valid_domain] and the lookup [search_company];
    - [src/data_loader/csv_handler.py]: [CSVHandler] with its validation
      steps, [clean_data], [read_and_validate], [get_company_records] and
      [save_processed_data].

    Text is modelled as Rocq [string]s, i.e. sequences of 8-bit characters.
    The character classes used below (white space, letters, digits) are the
    ASCII ones; characters above 127 are carried around unchanged. *)

From Stdlib Require Import ZArith Ascii String List Bool Lia.
From stdpp Require Import base decidable option list strings gmap sets pretty.

Local Open Scope string_scope.

(** ** Text primitives *)

Module Text.

Definition chars (s : string) : list ascii := list_ascii_of_string s.
Definition of_chars (l : list ascii) : string := string_of_list_ascii l.

Definition code (c : ascii) : nat := nat_of_ascii c.

Definition between (lo hi : nat) (c : ascii) : bool :=
  (lo <=? code c)%nat && (code c <=? hi)%nat.

Definition is_digit (c : ascii) : bool := between 48 57 c.
Definition is_upper (c : ascii) : bool := between 65 90 c.
Definition is_lower (c : ascii) : bool := between 97 122 c.
Definition is_alpha (c : ascii) : bool := is_upper c || is_lower c.

(** White space removed by [strip_chars()] with no argument: horizontal
    tab, line feed, vertical tab, form feed, carriage return, space. *)
Definition is_whitespace (c : ascii) : bool :=
  between 9 13 c || (code c =? 32)%nat.

Definition lower_char (c : ascii) : ascii :=
  if is_upper c then ascii_of_nat (code c + 32) else c.
Definition upper_char (c : ascii) : ascii :=
  if is_lower c then ascii_of_nat (code c - 32) else c.

(** [str.lower()] and [str.to_uppercase()], on the letters of ASCII. *)
Definition lower (s : string) : string := of_chars (map lower_char (chars s)).
Definition to_uppercase (s : string) : string :=
  of_chars (map upper_char (chars s)).

Fixpoint drop_while (p : ascii -> bool) (l : list ascii) : list ascii :=
  match l with
  | [] => []
  | c :: tl => if p c then drop_while p tl else l
  end.

Fixpoint take_while (p : ascii -> bool) (l : list ascii) : list ascii :=
  match l with
  | [] => []
  | c :: tl => if p c then c :: take_while p tl else []
  end.

Definition strip_list (l : list ascii) : list ascii :=
  rev (drop_while is_whitespace (rev (drop_while is_whitespace l))).

(** [str.strip_chars()]: white space removed at both ends. *)
Definition strip_chars (s : string) : string := of_chars (strip_list (chars s)).

Fixpoint starts_with (p l : list ascii) : bool :=
  match p, l with
  | [], _ => true
  | _ :: _, [] => false
  | a :: p', b :: l' => bool_decide (a = b) && starts_with p' l'
  end.

Fixpoint occurs_in (p l : list ascii) : bool :=
  starts_with p l ||
  match l with
  | [] => false
  | _ :: tl => occurs_in p tl
  end.

(** A text that neither starts nor ends with white space. *)
Definition starts_clean (l : list ascii) : Prop :=
  match l with
  | [] => True
  | c :: _ => is_whitespace c = false
  end.

Definition stripped (l : list ascii) : Prop :=
  starts_clean l /\ starts_clean (rev l).

(** Python's [needle in haystack] on two strings. *)
Definition contains (needle haystack : string) : bool :=
  occurs_in (chars needle) (chars haystack).

Definition is_empty (s : string) : bool :=
  match s with EmptyString => true | _ => false end.

(** [sep.join(parts)]. *)
Fixpoint join (sep : string) (parts : list string) : string :=
  match parts with
  | [] => ""
  | [p] => p
  | p :: rest => p ++ sep ++ join sep rest
  end.

End Text.

(** ** [urllib.parse.urlparse], as far as [netloc] goes

    The searcher reads only the [netloc] of the parse result, so the model
    keeps the scheme, the network location and the unsplit remainder.
    It follows [urlsplit] of CPython for text of ASCII characters: leading
    C0 control characters and spaces are dropped, tab, carriage return and
    line feed are removed, a scheme is split off at the first colon when
    everything before it is a scheme character and the first character is a
    letter, and the network location is what follows a leading [//] up to
    the first of [/], [?] and [#].  A network location with one square
    bracket but not the other raises [ValueError]; this is the [None] of
    [urlparse].  The inspection of the text between a balanced pair of
    brackets, added in late CPython releases, is not modelled. *)

Module UrlParse.
Import Text.

Record ParseResult := mkParseResult {
  scheme : string;
  netloc : string;
  remainder : string
}.

Definition is_c0_or_space (c : ascii) : bool := (code c <=? 32)%nat.

Definition is_unsafe (c : ascii) : bool :=
  (code c =? 9)%nat || (code c =? 10)%nat || (code c =? 13)%nat.

Definition is_scheme_char (c : ascii) : bool :=
  is_alpha c || is_digit c ||
  (code c =? 43)%nat || (code c =? 45)%nat || (code c =? 46)%nat.

Definition is_colon (c : ascii) : bool := (code c =? 58)%nat.

Definition is_netloc_delim (c : ascii) : bool :=
  (code c =? 47)%nat || (code c =? 63)%nat || (code c =? 35)%nat.

Definition has_char (n : nat) (l : list ascii) : bool :=
  existsb (fun c => (code c =? n)%nat) l.

(** [url.find(':')] followed by the scheme test: the text before the first
    colon and the text after it, when a scheme is recognised. *)
Definition split_scheme (url : list ascii) : option (list ascii * list ascii) :=
  let before := take_while (fun c => negb (is_colon c)) url in
  match drop_while (fun c => negb (is_colon c)) url with
  | [] => None                                   (* find returned -1 *)
  | _ :: rest =>
      match before with
      | [] => None                               (* i = 0 *)
      | c0 :: _ =>
          if is_alpha c0 && forallb is_scheme_char before
          then Some (map lower_char before, rest)
          else None
      end
  end.

Definition urlparse (u : string) : option ParseResult :=
  let url := List.filter (fun c => negb (is_unsafe c))
                    (drop_while is_c0_or_space (chars u)) in
  let '(sch, url) :=
    match split_scheme url with
    | Some (s, rest) => (s, rest)
    | None => ([], url)
    end in
  match url with
  | "/"%char :: "/"%char :: after =>
      let loc := take_while (fun c => negb (is_netloc_delim c)) after in
      let rest := drop_while (fun c => negb (is_netloc_delim c)) after in
      if (has_char 91 loc && negb (has_char 93 loc))
         || (has_char 93 loc && negb (has_char 91 loc))
      then None                                  (* ValueError *)
      else Some (mkParseResult (of_chars sch) (of_chars loc) (of_chars rest))
  | _ => Some (mkParseResult (of_chars sch) "" (of_chars url))
  end.

End UrlParse.

(** ** [src/webscraper/search.py] *)

Module Search.
Import Text UrlParse.

Record CompanySearcher := mkSearcher {
  api_key : option string;               (* os.getenv may give None *)
  excluded_domains : gset string
}.

(** [CompanySearcher.__init__]; the credential comes from the process
    environment, which is an input here. *)
Definition init (env_key : option string) : CompanySearcher :=
  mkSearcher env_key
    {[ "linkedin.com"; "facebook.com"; "twitter.com";
       "instagram.com"; "bloomberg.com" ]}.

(** [_is_valid_domain]: the [except] branch answers [False] when
    [urlparse] raises. *)
Definition _is_valid_domain (self : CompanySearcher) (url : string) : bool :=
  match urlparse url with
  | Some r =>
      let domain := lower (netloc r) in
      negb (existsb (fun excluded => contains excluded domain)
                    (elements (excluded_domains self)))
  | None => false
  end.

(** One entry of the [organic] array: [result.get("link")]. *)
Record OrganicResult := mkResult { link : option string }.

Record Request := mkRequest {
  req_url : string;
  req_q : string;
  req_num : Z;
  req_api_key : option string
}.

(** The reply to [requests.post]: the status code and the value of
    [data.get("organic", [])] in the decoded body. *)
Record Response := mkResponse {
  status_code : Z;
  organic : list OrganicResult
}.

(** The loop of [search_company]: [link] must be truthy (present and
    non-empty) and pass the domain filter. *)
Fixpoint first_valid (self : CompanySearcher) (results : list OrganicResult)
  : option string :=
  match results with
  | [] => None
  | result :: rest =>
      match link result with
      | Some l =>
          if negb (is_empty l) && _is_valid_domain self l
          then Some l
          else first_valid self rest
      | None => first_valid self rest
      end
  end.

(** A result the loop accepts: it has a non-empty [link] that passes the
    domain filter. *)
Definition qualifies (self : CompanySearcher) (result : OrganicResult) : bool :=
  match link result with
  | Some l => negb (is_empty l) && _is_valid_domain self l
  | None => false
  end.

Definition build_request (self : CompanySearcher) (company_name : string)
  : Request :=
  mkRequest "https://api.serper.dev/search"
            (company_name ++ " company official website") 5 (api_key self).

(** [search_company]; [post] is the remote endpoint, called once. *)
Definition search_company (post : Request -> Response)
    (self : CompanySearcher) (company_name : string) : option string :=
  let response := post (build_request self company_name) in
  if negb (status_code response =? 200)%Z then None
  else first_valid self (organic response).

End Search.

(** ** Exceptions, logging and file output as explicit effects *)

Module Effects.

Inductive exn :=
| FileNotFoundError (msg : string)
| ValueError (msg : string)
| CSVValidationError (msg : string)
| KeyError (msg : string)
| ColumnNotFoundError (msg : string)     (* polars *)
| SchemaError (msg : string)             (* polars: wrong dtype *)
| ComputeError (msg : string).           (* polars: the reader gave up *)

(** [str(e)]. *)
Definition exn_str (e : exn) : string :=
  match e with
  | FileNotFoundError m | ValueError m | CSVValidationError m
  | KeyError m | ColumnNotFoundError m | SchemaError m | ComputeError m => m
  end.

Inductive Result (A : Type) :=
| Ok (a : A)
| Raise (e : exn).
Arguments Ok {A} a.
Arguments Raise {A} e.

Inductive Level := INFO | WARNING | ERROR.

(** The text table handed to the file system by [write_csv]: the header
    row and the records, field by field. *)
Record CsvText := mkCsvText {
  header : list string;
  records : list (list string)
}.

Inductive Event :=
| Log (lvl : Level) (msg : string)
| WriteCsv (path : string) (text : CsvText).

(** What a method call does: it may update the object it runs on,
    leaves a trace of events, and then returns or raises.  An update made
    before a [raise] stays, as in Python. *)
Record Run (S A : Type) := mkRun {
  final : S;
  trace : list Event;
  outcome : Result A
}.
Arguments mkRun {S A} final trace outcome.
Arguments final {S A} r.
Arguments trace {S A} r.
Arguments outcome {S A} r.

Definition M (S A : Type) : Type := S -> Run S A.

Definition ret {S A} (a : A) : M S A := fun s => mkRun s [] (Ok a).
Definition raise {S A} (e : exn) : M S A := fun s => mkRun s [] (Raise e).
Definition emit {S} (ev : Event) : M S unit := fun s => mkRun s [ev] (Ok tt).
Definition get {S} : M S S := fun s => mkRun s [] (Ok s).
Definition put {S} (s' : S) : M S unit := fun _ => mkRun s' [] (Ok tt).
Definition lift {S A} (r : Result A) : M S A := fun s => mkRun s [] r.

Definition bind {S A B} (m : M S A) (f : A -> M S B) : M S B :=
  fun s =>
    let r := m s in
    match outcome r with
    | Ok a =>
        let r' := f a (final r) in
        mkRun (final r') (trace r ++ trace r')%list (outcome r')
    | Raise e => mkRun (final r) (trace r) (Raise e)
    end.

(** [try: body  except Exception as e: handler(e); raise]. *)
Definition reraising {S A} (body : M S A) (handler : exn -> M S unit)
  : M S A :=
  fun s =>
    let r := body s in
    match outcome r with
    | Ok a => r
    | Raise e =>
        let r' := handler e (final r) in
        mkRun (final r') (trace r ++ trace r')%list
              (match outcome r' with Ok _ => Raise e | Raise e' => Raise e' end)
    end.

(** The value a call returned, if it returned. *)
Definition outcome_value {S A} (r : Run S A) : option A :=
  match outcome r with
  | Ok a => Some a
  | Raise _ => None
  end.

(** Exceptions alone, for code that neither logs nor touches the object. *)
Definition rbind {A B} (r : Result A) (f : A -> Result B) : Result B :=
  match r with
  | Ok a => f a
  | Raise e => Raise e
  end.

End Effects.

Export Effects.

Declare Scope eff_scope.
Delimit Scope eff_scope with eff.
Notation "x <- m ;; k" := (bind m (fun x => k))
  (at level 100, m at level 99, right associativity) : eff_scope.
Notation "m ;;; k" := (bind m (fun _ => k))
  (at level 100, right associativity) : eff_scope.

(** ** The part of polars the handler uses *)

Module Polars.
Import Text.

(** A column: text ([pl.Utf8]) or 64-bit integers, which is what the CSV
    reader infers for a column of digits such as five-digit ZIP codes.
    [None] is polars' null. *)
Inductive Series :=
| Utf8 (vs : list (option string))
| Int64 (vs : list (option Z)).

(** Columns in frame order.  polars keeps the column names of a frame
    distinct; [unique_columns] states it. *)
Definition DataFrame := list (string * Series).

Definition columns (df : DataFrame) : list string := map fst df.
Definition unique_columns (df : DataFrame) : Prop := NoDup (columns df).

Fixpoint get_column (df : DataFrame) (name : string) : option Series :=
  match df with
  | [] => None
  | (n, s) :: rest => if bool_decide (n = name) then Some s else get_column rest name
  end.

Definition is_utf8 (s : Series) : bool :=
  match s with Utf8 _ => true | Int64 _ => false end.

(** [.cast(str)]: text stays, integers are written in decimal. *)
Definition cast_str (s : Series) : list (option string) :=
  match s with
  | Utf8 vs => vs
  | Int64 vs => map (fun v => z ← v; Some (pretty (z : Z))) vs
  end.

(** [.is_null().sum()]. *)
Definition count_nulls {A} (vs : list (option A)) : nat :=
  length (List.filter (fun v => match v with None => true | Some _ => false end) vs).
Definition null_count (s : Series) : nat :=
  match s with
  | Utf8 vs => count_nulls vs
  | Int64 vs => count_nulls vs
  end.

(** [with_columns]: a column whose name is already there is replaced
    where it stands, a new name is appended. *)
Definition with_column (df : DataFrame) (new : string * Series) : DataFrame :=
  if bool_decide (new.1 ∈ columns df)
  then map (fun old => if bool_decide (old.1 = new.1) then new else old) df
  else (df ++ [new])%list.

Definition with_columns (df : DataFrame) (news : list (string * Series))
  : DataFrame :=
  fold_left with_column news df.

(** A frame rebuilt column by column, names and order kept. *)
Definition map_columns (g : string -> Series -> Series) (df : DataFrame)
  : DataFrame :=
  map (fun col => (col.1, g col.1 col.2)) df.

(** What a list of replacement columns does to the column called [name]
    holding [old]: the last replacement of that name wins. *)
Definition override (news : list (string * Series)) (name : string)
    (old : Series) : Series :=
  fold_left (fun acc new => if bool_decide (new.1 = name) then new.2 else acc)
            news old.

(** Cells as Python values, for [iter_rows(named=True)]. *)
Inductive PyVal :=
| PyNone
| PyStr (s : string)
| PyInt (z : Z).

Definition cells (s : Series) : list PyVal :=
  match s with
  | Utf8 vs => map (fun v => match v with Some x => PyStr x | None => PyNone end) vs
  | Int64 vs => map (fun v => match v with Some x => PyInt x | None => PyNone end) vs
  end.

Definition height (df : DataFrame) : nat :=
  match df with
  | [] => 0
  | (_, s) :: _ => length (cells s)
  end.

Definition row_at (df : DataFrame) (i : nat) : list (string * PyVal) :=
  map (fun col => (col.1, nth i (cells col.2) PyNone)) df.

Definition iter_rows (df : DataFrame) : list (list (string * PyVal)) :=
  map (row_at df) (seq 0 (height df)).

(** [write_csv]: the header repeats the column names, a null is written
    as an empty field. *)
Definition field_text (v : PyVal) : string :=
  match v with
  | PyNone => ""
  | PyStr s => s
  | PyInt z => pretty z
  end.

Definition write_csv (df : DataFrame) : CsvText :=
  mkCsvText (columns df)
            (map (fun row => map (fun kv => field_text kv.2) row) (iter_rows df)).

(** The regular expression [(\d{5})] of [str.extract]: the leftmost five
    consecutive digits. *)
Definition five_digits_here (l : list ascii) : bool :=
  (length (take 5 l) =? 5)%nat && forallb is_digit (take 5 l).

Fixpoint extract_5_digits (l : list ascii) : option (list ascii) :=
  match l with
  | [] => None
  | _ :: tl => if five_digits_here l then Some (take 5 l) else extract_5_digits tl
  end.

Definition str_extract_zip (s : string) : option string :=
  of_chars <$> extract_5_digits (chars s).

(** Five digits in a row at offset [k] of a text: what a match of
    [\d{5}] at that offset is. *)
Definition digits_at (l : list ascii) (k : nat) (m : list ascii) : Prop :=
  take 5 (drop k l) = m /\ length m = 5%nat /\ forallb is_digit m = true.

(** The regular expression [^\d{5}(-\d{4})?$] of [str.contains]. *)
Definition zip_pattern (s : string) : bool :=
  let l := chars s in
  forallb is_digit (take 5 l) &&
  ((length l =? 5)%nat
   || ((length l =? 10)%nat
       && bool_decide (l !! 5%nat = Some "-"%char)
       && forallb is_digit (drop 6 l))).

End Polars.

(** ** [pathlib.Path] and the file system

    A [Path] is kept as its text, the one [str()] gives for it: no empty
    component, no component [.] and no slash at the end, which is how
    pathlib keeps a path.  The file system is an input of every
    call that touches it: for each existing path it tells what
    [pl.scan_csv(path).collect()] makes of the file, a frame or an
    exception of the reader. *)

Module PathLib.
Import Text.

Definition is_slash (c : ascii) : bool := (code c =? 47)%nat.
Definition is_dot (c : ascii) : bool := (code c =? 46)%nat.

(** [Path.name]: the last component. *)
Definition name (p : string) : list ascii :=
  rev (take_while (fun c => negb (is_slash c)) (rev (chars p))).

(** [Path.suffix]: with [i = name.rfind('.')], the text [name[i:]] when
    [0 < i < len(name) - 1], and the empty text otherwise. *)
Definition suffix (p : string) : string :=
  let rn := rev (name p) in
  let ext := take_while (fun c => negb (is_dot c)) rn in
  match drop_while (fun c => negb (is_dot c)) rn with
  | [] => ""                                     (* no dot at all *)
  | dot :: stem =>
      match stem, ext with
      | _ :: _, _ :: _ => of_chars (dot :: rev ext)
      | _, _ => ""
      end
  end.

(** The ways of writing [.csv] in upper and lower case. *)
Definition csv_spellings : list string :=
  [".csv"; ".csV"; ".cSv"; ".cSV"; ".Csv"; ".CsV"; ".CSv"; ".CSV"].

Definition FileSystem := gmap string (Result Polars.DataFrame).

(** [Path.exists()]. *)
Definition path_exists (fs : FileSystem) (p : string) : bool :=
  bool_decide (is_Some (fs !! p)).

(** [pl.scan_csv(path).collect()]. *)
Definition scan_csv (fs : FileSystem) (p : string) : Result Polars.DataFrame :=
  match fs !! p with
  | Some content => content
  | None => Raise (FileNotFoundError ("No such file or directory: " ++ p))
  end.

End PathLib.

(** ** [src/data_loader/csv_handler.py] *)

Module CsvHandler.
Import Text Polars PathLib.
Local Open Scope eff_scope.

(** The dataclass does not check its annotations: every field holds
    whatever Python value the row had. *)
Record CompanyRecord := mkCompanyRecord {
  company_name : PyVal;
  parent_company_name : PyVal;
  executive_first_name : PyVal;
  executive_last_name : PyVal;
  address : PyVal;
  city : PyVal;
  state : PyVal;
  zip_code : PyVal;
  legal_name : PyVal;
  record_type : PyVal
}.

Record CSVHandler := mkHandler {
  file_path : string;
  data : option DataFrame
}.

Definition REQUIRED_COLUMNS : gset string :=
  {[ "Company Name"; "Parent Company Name"; "Executive First Name";
     "Executive Last Name"; "Address"; "City"; "State"; "ZIP Code";
     "Legal Name"; "Record Type" ]}.

(** [__init__]. *)
Definition init (path : string) : CSVHandler := mkHandler path None.

Definition validate_file_exists (fs : FileSystem) (self : CSVHandler)
  : Result unit :=
  if negb (path_exists fs (file_path self))
  then Raise (FileNotFoundError ("CSV file not found at: " ++ file_path self))
  else if negb (bool_decide (lower (suffix (file_path self)) = ".csv"))
  then Raise (ValueError ("File must be a CSV file, got: "
                          ++ suffix (file_path self)))
  else Ok tt.

(** [repr] of a text without quotes or escapes, and of a set of such
    texts listed in the order [order]; Python leaves the order open. *)
Definition py_repr (s : string) : string := "'" ++ s ++ "'".
Definition set_repr (order : list string) : string :=
  "{" ++ join ", " (map py_repr order) ++ "}".

Definition missing_columns (df : DataFrame) : gset string :=
  REQUIRED_COLUMNS ∖ list_to_set (columns df).

Definition validate_columns (df : DataFrame) : Result unit :=
  let missing := elements (missing_columns df) in
  match missing with
  | [] => Ok tt
  | _ :: _ =>
      Raise (CSVValidationError ("Missing required columns: " ++ set_repr missing))
  end.

Definition required_non_null : list string :=
  ["Company Name"; "Address"; "City"; "State"; "ZIP Code"].

Definition pl_col (df : DataFrame) (col : string) : Result Series :=
  match get_column df col with
  | Some s => Ok s
  | None => Raise (ColumnNotFoundError col)
  end.

(** [df.select([pl.col(col).is_null().sum() ...]).row(0)]. *)
Fixpoint select_null_counts (df : DataFrame) (cols : list string)
  : Result (list nat) :=
  match cols with
  | [] => Ok []
  | col :: rest =>
      rbind (pl_col df col) (fun s =>
      rbind (select_null_counts df rest) (fun counts =>
      Ok (null_count s :: counts)))
  end.

(** The f-string [f"{col}: {count}"]. *)
Definition null_field_text (cc : string * nat) : string :=
  cc.1 ++ ": " ++ pretty cc.2.

Definition null_fields (counts : list nat) : list string :=
  map null_field_text
      (List.filter (fun cc => (0 <? cc.2)%nat) (zip required_non_null counts)).

(** Rows kept by the filter on the ZIP pattern: a null cell gives a null
    mask and is left out. *)
Definition invalid_zips (zips : Series) : nat :=
  length (List.filter (fun v => match v with
                           | Some z => negb (zip_pattern z)
                           | None => false
                           end) (cast_str zips)).

Definition validate_data_types (df : DataFrame) : M CSVHandler unit :=
  null_counts <- lift (select_null_counts df required_non_null) ;;
  let fields := null_fields null_counts in
  match fields with
  | _ :: _ =>
      raise (CSVValidationError
               ("Null values found in required fields: " ++ join ", " fields))
  | [] =>
      zips <- lift (pl_col df "ZIP Code") ;;
      let n := invalid_zips zips in
      if (0 <? n)%nat
      then emit (Log WARNING ("Found " ++ pretty n
                              ++ " records with invalid ZIP codes"))
      else ret tt
  end.

(** The required fields with at least one null, each with its count, in
    the order of [required_non_null]: what the error message has to
    enumerate. *)
Definition required_null_count (df : DataFrame) (col : string) : nat :=
  from_option null_count 0%nat (get_column df col).

Definition offending_fields (df : DataFrame) : list (string * nat) :=
  List.filter (fun cc => (0 <? cc.2)%nat)
              (map (fun col => (col, required_null_count df col))
                   required_non_null).

(** What the ZIP check of [validate_data_types] is to log: one warning
    with the number of offending rows, when there are any. *)
Definition zip_warnings (df : DataFrame) : list Event :=
  match get_column df "ZIP Code" with
  | Some zips =>
      if (0 <? invalid_zips zips)%nat
      then [Log WARNING ("Found " ++ pretty (invalid_zips zips)
                         ++ " records with invalid ZIP codes")]
      else []
  | None => []
  end.

(** First pass of [clean_data] on one cell. *)
Definition strip_or_null (v : option string) : option string :=
  match v with
  | Some s => let t := strip_chars s in if is_empty t then None else Some t
  | None => None
  end.

Definition string_cols (df : DataFrame) : list string :=
  List.filter (fun col => match get_column df col with
                     | Some s => is_utf8 s
                     | None => false
                     end) (columns df).

Definition first_pass_exprs (df : DataFrame) : list (string * Series) :=
  omap (fun col => match get_column df col with
                   | Some (Utf8 vs) => Some (col, Utf8 (map strip_or_null vs))
                   | _ => None
                   end) (string_cols df).

(** [.str.to_uppercase()] needs a text column. *)
Definition str_to_uppercase (s : Series) : Result Series :=
  match s with
  | Utf8 vs => Ok (Utf8 (map (fmap to_uppercase) vs))
  | Int64 _ => Raise (SchemaError "invalid series dtype: expected `String`, got `i64`")
  end.

Definition extract_zip (s : Series) : Series :=
  Utf8 (map (fun v => z ← v; str_extract_zip z) (cast_str s)).

Definition clean_data (df : DataFrame) : Result DataFrame :=
  let cleaned := with_columns df (first_pass_exprs df) in
  rbind (pl_col cleaned "State") (fun st =>
  rbind (str_to_uppercase st) (fun st' =>
  rbind (pl_col cleaned "ZIP Code") (fun zp =>
  Ok (with_columns cleaned [("State", st'); ("ZIP Code", extract_zip zp)])))).

(** [clean_data] column by column, on a frame where it returns: text
    columns are stripped with empty results turned into null, the state
    column is put in upper case, the ZIP column becomes the first five
    digits in a row of each stripped value. *)
Definition strip_column (s : Series) : Series :=
  match s with
  | Utf8 vs => Utf8 (map strip_or_null vs)
  | Int64 vs => Int64 vs
  end.

Definition uppercase_column (s : Series) : Series :=
  match s with
  | Utf8 vs => Utf8 (map (fmap to_uppercase) vs)
  | Int64 vs => Int64 vs
  end.

Definition clean_column (name : string) (s : Series) : Series :=
  if bool_decide (name = "ZIP Code") then extract_zip (strip_column s)
  else if bool_decide (name = "State") then uppercase_column (strip_column s)
  else strip_column s.

Definition Clean (df : DataFrame) : DataFrame := map_columns clean_column df.

Definition set_data (df : DataFrame) : M CSVHandler unit :=
  self <- get ;; put (mkHandler (file_path self) (Some df)).

Definition read_and_validate (fs : FileSystem) : M CSVHandler DataFrame :=
  reraising
    (self <- get ;;
     lift (validate_file_exists fs self) ;;;
     emit (Log INFO ("Reading CSV file: " ++ file_path self)) ;;;
     df <- lift (scan_csv fs (file_path self)) ;;
     lift (validate_columns df) ;;;
     validate_data_types df ;;;
     cleaned_df <- lift (clean_data df) ;;
     set_data cleaned_df ;;;
     emit (Log INFO ("Successfully processed "
                     ++ pretty (height cleaned_df) ++ " records")) ;;;
     ret cleaned_df)
    (fun e => emit (Log ERROR ("Error processing CSV file: " ++ exn_str e))).

(** [row[key]] on the dictionary of a named row. *)
Fixpoint row_get (row : list (string * PyVal)) (key : string) : Result PyVal :=
  match row with
  | [] => Raise (KeyError (py_repr key))
  | (k, v) :: rest => if bool_decide (k = key) then Ok v else row_get rest key
  end.

Definition make_record (row : list (string * PyVal)) : Result CompanyRecord :=
  rbind (row_get row "Company Name") (fun f1 =>
  rbind (row_get row "Parent Company Name") (fun f2 =>
  rbind (row_get row "Executive First Name") (fun f3 =>
  rbind (row_get row "Executive Last Name") (fun f4 =>
  rbind (row_get row "Address") (fun f5 =>
  rbind (row_get row "City") (fun f6 =>
  rbind (row_get row "State") (fun f7 =>
  rbind (row_get row "ZIP Code") (fun f8 =>
  rbind (row_get row "Legal Name") (fun f9 =>
  rbind (row_get row "Record Type") (fun f10 =>
  Ok (mkCompanyRecord f1 f2 f3 f4 f5 f6 f7 f8 f9 f10))))))))))).

(** [str(value)] inside an f-string. *)
Definition py_str (v : PyVal) : string :=
  match v with
  | PyNone => "None"
  | PyStr s => s
  | PyInt z => pretty z
  end.

(** The loop of [get_company_records]; the handler of the inner [try]
    reads [row['Company Name']] again, outside any [try]. *)
Fixpoint convert_rows (rows : list (list (string * PyVal)))
    (acc : list CompanyRecord) : M CSVHandler (list CompanyRecord) :=
  match rows with
  | [] => ret acc
  | row :: rest =>
      match make_record row with
      | Ok record => convert_rows rest (acc ++ [record])%list
      | Raise e =>
          who <- lift (row_get row "Company Name") ;;
          emit (Log ERROR ("Error creating record for company "
                           ++ py_str who ++ ": " ++ exn_str e)) ;;;
          convert_rows rest acc
      end
  end.

Definition get_company_records : M CSVHandler (list CompanyRecord) :=
  self <- get ;;
  match data self with
  | None => raise (ValueError "Data not loaded. Call read_and_validate() first.")
  | Some df => convert_rows (iter_rows df) []
  end.

Definition save_processed_data (output_path : string) : M CSVHandler unit :=
  self <- get ;;
  match data self with
  | None => raise (ValueError "No data to save. Call read_and_validate() first.")
  | Some df =>
      emit (WriteCsv output_path (write_csv df)) ;;;
      emit (Log INFO ("Saved processed data to " ++ output_path))
  end.

(** How a load that raises [e] after the events [tr] ends: the handler is
    as before, the error is logged and raised again. *)
Definition load_failed (self : CSVHandler) (tr : list Event) (e : exn)
  : Run CSVHandler DataFrame :=
  mkRun self
        (tr ++ [Log ERROR ("Error processing CSV file: " ++ exn_str e)])%list
        (Raise e).

(** A handler on which no [read_and_validate] has succeeded so far: it is
    fresh, or it comes out of a load that raised on such a handler. *)
Inductive never_loaded : CSVHandler -> Prop :=
| never_loaded_init (path : string) : never_loaded (init path)
| never_loaded_failed (fs : FileSystem) (self : CSVHandler) (e : exn) :
    never_loaded self ->
    outcome (read_and_validate fs self) = Raise e ->
    never_loaded (final (read_and_validate fs self)).

End CsvHandler.

(** ** Frames of the repository's tests, and the samples of the specification *)

Module Fixtures.
Import Polars PathLib CsvHandler.

(** [valid_csv_data] of [tests/test_csv_handler.py]. *)
Definition valid_csv_data : DataFrame :=
  [("Company Name", Utf8 [Some "Tech Corp"; Some "Data Inc"]);
   ("Parent Company Name", Utf8 [Some "Parent Corp"; None]);
   ("Executive First Name", Utf8 [Some "John"; Some "Jane"]);
   ("Executive Last Name", Utf8 [Some "Doe"; Some "Smith"]);
   ("Address", Utf8 [Some "123 Tech St"; Some "456 Data Ave"]);
   ("City", Utf8 [Some "San Francisco"; Some "New York"]);
   ("State", Utf8 [Some "CA"; Some "NY"]);
   ("ZIP Code", Utf8 [Some "94105"; Some "10001"]);
   ("Legal Name", Utf8 [Some "TC Limited"; Some "DI Corp"]);
   ("Record Type", Utf8 [Some "HQ"; Some "Branch"])].

(** [dirty_data] of [test_clean_data]. *)
Definition dirty_data : DataFrame :=
  [("Company Name", Utf8 [Some " Tech Corp "; Some "Data Inc"]);
   ("Parent Company Name", Utf8 [Some "Parent Corp"; Some ""]);
   ("Executive First Name", Utf8 [Some "John "; Some "Jane"]);
   ("Executive Last Name", Utf8 [Some "Doe"; Some "Smith"]);
   ("Address", Utf8 [Some "123 Tech St"; Some "456 Data Ave"]);
   ("City", Utf8 [Some "San Francisco"; Some "New York"]);
   ("State", Utf8 [Some "ca"; Some "ny"]);
   ("ZIP Code", Utf8 [Some "94105-1234"; Some "10001"]);
   ("Legal Name", Utf8 [Some "TC Limited"; Some "DI Corp"]);
   ("Record Type", Utf8 [Some "HQ"; Some "Branch"])].

(** The ZIP and state samples of the specification. *)
Definition spec_samples : DataFrame :=
  [("State", Utf8 [Some "ca"; None; Some " ny "; Some "Tx"]);
   ("ZIP Code", Utf8 [Some "94105-1234"; Some "ABC"; Some "941";
                      Some "9410512345"])].

(** What the CSV reader makes of [valid_csv_data] written to a file, as in
    the fixture [temp_csv_file]: the ZIP codes, all digits, come back as
    integers. *)
Definition valid_csv_file : DataFrame :=
  map (fun col => if bool_decide (col.1 = "ZIP Code")
                  then (col.1, Int64 [Some 94105%Z; Some 10001%Z])
                  else col) valid_csv_data.

(** The same file with one more column than the schema asks for, as read
    and as cleaned. *)
Definition extra_column_file : DataFrame :=
  (valid_csv_file
   ++ [("Website", Utf8 [Some "https://tech.example"; None])])%list.

Definition extra_column_data : DataFrame :=
  (valid_csv_data
   ++ [("Website", Utf8 [Some "https://tech.example"; None])])%list.

(** A source file that passes both validations although one company name
    is blank and one ZIP code has no five digits in a row. *)
Definition unclean_data : DataFrame :=
  [("Company Name", Utf8 [Some "   "; Some "Data Inc"]);
   ("Parent Company Name", Utf8 [Some "Parent Corp"; None]);
   ("Executive First Name", Utf8 [Some "John"; Some "Jane"]);
   ("Executive Last Name", Utf8 [Some "Doe"; Some "Smith"]);
   ("Address", Utf8 [Some "123 Tech St"; Some "456 Data Ave"]);
   ("City", Utf8 [Some "San Francisco"; Some "New York"]);
   ("State", Utf8 [Some "CA"; Some "NY"]);
   ("ZIP Code", Utf8 [Some "94105"; Some "ABC"]);
   ("Legal Name", Utf8 [Some "TC Limited"; Some "DI Corp"]);
   ("Record Type", Utf8 [Some "HQ"; Some "Branch"])].

(** [invalid_data] of [test_validate_data_types_null_values]. *)
Definition invalid_data : DataFrame :=
  [("Company Name", Utf8 [None; Some "Data Inc"]);
   ("Parent Company Name", Utf8 [Some "Parent Corp"; None]);
   ("Executive First Name", Utf8 [Some "John"; Some "Jane"]);
   ("Executive Last Name", Utf8 [Some "Doe"; Some "Smith"]);
   ("Address", Utf8 [Some "123 Tech St"; Some "456 Data Ave"]);
   ("City", Utf8 [Some "San Francisco"; None]);
   ("State", Utf8 [Some "CA"; Some "NY"]);
   ("ZIP Code", Utf8 [Some "94105"; Some "10001"]);
   ("Legal Name", Utf8 [Some "TC Limited"; Some "DI Corp"]);
   ("Record Type", Utf8 [Some "HQ"; Some "Branch"])].

(** File systems: the valid file in place, the file gone, and the same
    path holding the other files. *)
Definition fs_valid : FileSystem := {[ "companies.csv" := Ok valid_csv_file ]}.
Definition fs_deleted : FileSystem := ∅.
Definition fs_unclean : FileSystem := {[ "companies.csv" := Ok unclean_data ]}.
Definition fs_extra : FileSystem := {[ "companies.csv" := Ok extra_column_file ]}.

Definition ten_columns : list string :=
  ["Company Name"; "Parent Company Name"; "Executive First Name";
   "Executive Last Name"; "Address"; "City"; "State"; "ZIP Code";
   "Legal Name"; "Record Type"].

End Fixtures.

(** ** The wording of the specification

    What cleaning and validation have to deliver, said without the
    functions of the handler: classes of characters are lists of
    characters, counting is a relation, the shape of a ZIP code is spelt
    out.  The theorems on [clean_data], [validate_data_types] and
    [validate_columns] compare the code with these. *)

Module Wording.
Import Text Polars CsvHandler.

(** Horizontal tab, line feed, vertical tab, form feed, carriage return
    and space: the white space of the ASCII range. *)
Definition whitespace_chars : list ascii :=
  ["009"; "010"; "011"; "012"; "013"; " "]%char.

Definition digit_chars : list ascii := chars "0123456789".
Definition lower_letters : list ascii := chars "abcdefghijklmnopqrstuvwxyz".
Definition upper_letters : list ascii := chars "ABCDEFGHIJKLMNOPQRSTUVWXYZ".

(** Frames whose text is ASCII.  On other text polars works on Unicode
    code points (white space such as U+00A0, digits and letters of other
    scripts), which the 8-bit characters of this development do not
    render; the properties of cleaning and of the ZIP check are stated for
    ASCII text. *)
Definition ascii_text (s : string) : bool :=
  forallb (fun c => (code c <? 128)%nat) (chars s).

Definition ascii_series (s : Series) : bool :=
  match s with
  | Utf8 vs => forallb (fun v => match v with
                                 | Some x => ascii_text x
                                 | None => true
                                 end) vs
  | Int64 _ => true
  end.

Definition ascii_only (df : DataFrame) : bool :=
  forallb (fun col => ascii_series col.2) df.

(** *** Stripping *)

Definition blank (l : list ascii) : Prop :=
  Forall (fun c => c ∈ whitespace_chars) l.

(** No white space at the first and at the last place. *)
Definition trimmed (l : list ascii) : Prop :=
  (forall c, head l = Some c -> c ∉ whitespace_chars)
  /\ (forall c, last l = Some c -> c ∉ whitespace_chars).

(** [w] is what is left of the text [x] once the white space at its two
    ends is gone: null when nothing is left, and otherwise the text
    between a blank start and a blank end of [x] that itself starts and
    ends with something else. *)
Definition stripped_to (x : string) (w : option string) : Prop :=
  match w with
  | None => blank (chars x)
  | Some t =>
      t <> ""
      /\ trimmed (chars t)
      /\ exists left right,
           chars x = (left ++ chars t ++ right)%list
           /\ blank left /\ blank right
  end.

Definition strip_cell (v w : option string) : Prop :=
  match v with
  | None => w = None
  | Some x => stripped_to x w
  end.

(** *** Upper case *)

(** A small letter goes to the capital letter at the same place of the
    alphabet, any other character stays. *)
Definition upper_of (c c' : ascii) : Prop :=
  (c, c') ∈ zip lower_letters upper_letters
  \/ ((c ∉ lower_letters) /\ c' = c).

Definition upper_text (t t' : string) : Prop :=
  Forall2 upper_of (chars t) (chars t').

(** A state cell: stripped, then put in upper case; null stays null. *)
Definition state_cell (v w : option string) : Prop :=
  exists u, strip_cell v u /\ option_Forall2 upper_text u w.

(** *** The first five digits in a row *)

Definition all_digits (m : list ascii) : Prop :=
  Forall (fun c => c ∈ digit_chars) m.

(** The five characters of [l] from offset [k] on are [m], all digits. *)
Definition digit_run (l : list ascii) (k : nat) (m : list ascii) : Prop :=
  take 5 (drop k l) = m /\ length m = 5 /\ all_digits m.

(** [w] is the leftmost run of five digits of [x], null when [x] has
    none. *)
Definition first_five_digits (x : string) (w : option string) : Prop :=
  match w with
  | Some z =>
      exists k, digit_run (chars x) k (chars z)
                /\ forall j m, j < k -> ~ digit_run (chars x) j m
  | None => forall k m, ~ digit_run (chars x) k m
  end.

(** A ZIP cell: the first five digits in a row of the stripped text. *)
Definition zip_cell (v w : option string) : Prop :=
  exists u, strip_cell v u
            /\ match u with
               | None => w = None
               | Some t => first_five_digits t w
               end.

(** A ZIP cell that the reader took for an integer: the first five
    digits in a row of its decimal notation. *)
Definition integer_zip_cell (v : option Z) (w : option string) : Prop :=
  match v with
  | None => w = None
  | Some z => first_five_digits (pretty z) w
  end.

(** *** A cleaned column *)

Definition cleaned_column (name : string) (s s' : Series) : Prop :=
  match s with
  | Utf8 vs =>
      exists ws,
        s' = Utf8 ws
        /\ Forall2 (if decide (name = "ZIP Code") then zip_cell
                    else if decide (name = "State") then state_cell
                    else strip_cell) vs ws
  | Int64 zs =>
      if decide (name = "ZIP Code")
      then exists ws, s' = Utf8 ws /\ Forall2 integer_zip_cell zs ws
      else s' = Int64 zs
  end.

(** [test_clean_data] asks for these cells of the cleaned [dirty_data];
    the whole frame follows the same rules. *)
Definition dirty_data_cleaned : DataFrame :=
  [("Company Name", Utf8 [Some "Tech Corp"; Some "Data Inc"]);
   ("Parent Company Name", Utf8 [Some "Parent Corp"; None]);
   ("Executive First Name", Utf8 [Some "John"; Some "Jane"]);
   ("Executive Last Name", Utf8 [Some "Doe"; Some "Smith"]);
   ("Address", Utf8 [Some "123 Tech St"; Some "456 Data Ave"]);
   ("City", Utf8 [Some "San Francisco"; Some "New York"]);
   ("State", Utf8 [Some "CA"; Some "NY"]);
   ("ZIP Code", Utf8 [Some "94105"; Some "10001"]);
   ("Legal Name", Utf8 [Some "TC Limited"; Some "DI Corp"]);
   ("Record Type", Utf8 [Some "HQ"; Some "Branch"])].

(** *** Counting *)

(** [n] of the elements of a list satisfy [P]. *)
Inductive counted {A} (P : A -> Prop) : list A -> nat -> Prop :=
| counted_nil : counted P [] 0
| counted_yes x l n : P x -> counted P l n -> counted P (x :: l) (S n)
| counted_no x l n : ~ P x -> counted P l n -> counted P (x :: l) n.

(** The column has [k] null cells. *)
Definition null_cells (s : Series) (k : nat) : Prop :=
  match s with
  | Utf8 vs => counted (fun v => v = None) vs k
  | Int64 zs => counted (fun v => v = None) zs k
  end.

(** The fields of the error message: going through the required fields
    in order, a field with [k > 0] nulls gives the entry [field: k], a
    field without nulls gives none. *)
Inductive reported (df : DataFrame) : list string -> list string -> Prop :=
| reported_nil : reported df [] []
| reported_clean c cs fs s :
    get_column df c = Some s -> null_cells s 0 ->
    reported df cs fs -> reported df (c :: cs) fs
| reported_nulls c cs fs s k :
    get_column df c = Some s -> null_cells s k -> 0 < k ->
    reported df cs fs ->
    reported df (c :: cs) ((c ++ ": " ++ pretty k) :: fs).

(** *** The shape of a ZIP code *)

(** Five digits, and then nothing or a hyphen and four digits. *)
Definition zip_shape (z : string) : Prop :=
  exists five rest,
    chars z = (five ++ rest)%list
    /\ length five = 5 /\ all_digits five
    /\ (rest = []
        \/ exists four, rest = ("-"%char :: four)
                        /\ length four = 4 /\ all_digits four).

(** The ZIP codes of a column as text. *)
Definition zip_texts (s : Series) : list (option string) :=
  match s with
  | Utf8 vs => vs
  | Int64 zs => map (fmap pretty) zs
  end.

(** A row the ZIP check reports: it has a ZIP code, of another shape. *)
Definition bad_zip (v : option string) : Prop :=
  exists z, v = Some z /\ ~ zip_shape z.

(** The example of the specification: two nulls among the company names,
    one among the cities. *)
Definition two_and_one_nulls : DataFrame :=
  [("Company Name", Utf8 [None; Some "Data Inc"; None]);
   ("Address", Utf8 [Some "123 Tech St"; Some "456 Data Ave"; Some "789 Web Rd"]);
   ("City", Utf8 [Some "San Francisco"; None; Some "Austin"]);
   ("State", Utf8 [Some "CA"; Some "NY"; Some "TX"]);
   ("ZIP Code", Utf8 [Some "94105"; Some "10001"; Some "73301"])].

End Wording.

(** ** What the remaining properties speak about *)

Module Coverage.
Import Text Polars PathLib CsvHandler.









End Coverage.

(** * Properties *)

(** ** The search client *)

Module SearchFacts.
Import Text UrlParse Search.

Lemma excluded_any self domain :
  existsb (fun excluded => contains excluded domain)
          (elements (excluded_domains self)) = true
  <-> exists d, d ∈ excluded_domains self /\ contains d domain = true.
Proof.
  rewrite existsb_exists. split.
  - intros (d & Hin & Hc). exists d. split; [|done].
    apply elem_of_elements, list_elem_of_In, Hin.
  - intros (d & Hin & Hc). exists d. split; [|done].
    apply list_elem_of_In, elem_of_elements, Hin.
Qed.

Lemma blocklisted_rejected self url r d :
  urlparse url = Some r ->
  d ∈ excluded_domains self ->
  contains d (lower (netloc r)) = true ->
  _is_valid_domain self url = false.
Proof.
  intros Hp Hd Hc. unfold _is_valid_domain. rewrite Hp.
  apply negb_false_iff, excluded_any. eauto.
Qed.

Lemma unparsable_rejected self url :
  urlparse url = None -> _is_valid_domain self url = false.
Proof. intros Hp. unfold _is_valid_domain. now rewrite Hp. Qed.

(** C3: [_is_valid_domain] accepts ["https://company.com"], rejects every
    URL whose host (lower-cased network location) contains a blocklisted
    domain, [sub.facebook.com] among them, and rejects every input on which
    [urlparse] raises.  The text ["not a url"] does not make [urlparse]
    raise: it parses with an empty network location, no blocklisted domain
    occurs in the empty text, and the answer is [true], where the claim
    says [false]. *)
Theorem is_valid_domain_behaviour (key : option string) :
  _is_valid_domain (init key) "https://company.com" = true
  /\ _is_valid_domain (init key) "https://sub.facebook.com" = false
  /\ (forall self url r d,
        urlparse url = Some r /\ d ∈ excluded_domains self
        /\ contains d (lower (netloc r)) = true ->
        _is_valid_domain self url = false)
  /\ (forall self url, urlparse url = None -> _is_valid_domain self url = false)
  /\ urlparse "not a url" = Some (mkParseResult "" "" "not a url")
  /\ _is_valid_domain (init key) "not a url" = true.
Proof.
  repeat split.
  - intros self url r d (Hp & Hd & Hc). eapply blocklisted_rejected; eauto.
  - apply unparsable_rejected.
Qed.

Lemma first_valid_qualifies self results :
  first_valid self results =
  match results with
  | [] => None
  | r :: rest => if qualifies self r then link r else first_valid self rest
  end.
Proof.
  destruct results as [|r rest]; [done|]. simpl. unfold qualifies.
  destruct (link r) as [l|]; [|done].
  now destruct (negb (is_empty l) && _is_valid_domain self l).
Qed.

Lemma qualifies_link self r :
  qualifies self r = true <->
  exists l, link r = Some l /\ l <> "" /\ _is_valid_domain self l = true.
Proof.
  unfold qualifies. destruct (link r) as [l|].
  - rewrite andb_true_iff, negb_true_iff. split.
    + intros [He Hv]. exists l. repeat split; [|done]. now intros ->.
    + intros (l' & [= <-] & Hne & Hv). split; [|done]. now destruct l.
  - split; [done|]. now intros (l & ? & _).
Qed.

Lemma first_valid_some self results l :
  first_valid self results = Some l <->
  exists before r after,
    results = (before ++ r :: after)%list
    /\ Forall (fun r' => qualifies self r' = false) before
    /\ qualifies self r = true /\ link r = Some l.
Proof.
  induction results as [|r rest IH]; rewrite first_valid_qualifies.
  - split; [done|]. intros (before & r & after & Heq & _). now destruct before.
  - destruct (qualifies self r) eqn:Hq.
    + split.
      * intros Hl. exists [], r, rest. repeat split; auto.
      * intros (before & r' & after & Heq & Hbefore & Hq' & Hl).
        destruct before as [|b before]; simpl in Heq; inversion Heq; subst; [done|].
        inversion Hbefore; congruence.
    + rewrite IH. split.
      * intros (before & r' & after & -> & Hbefore & Hq' & Hl).
        exists (r :: before), r', after. repeat split; auto.
      * intros (before & r' & after & Heq & Hbefore & Hq' & Hl).
        destruct before as [|b before]; simpl in Heq; inversion Heq; subst;
          [congruence|].
        inversion Hbefore; subst. eauto 10.
Qed.

Lemma first_valid_none self results :
  first_valid self results = None <->
  Forall (fun r => qualifies self r = false) results.
Proof.
  induction results as [|r rest IH]; rewrite first_valid_qualifies.
  - split; [constructor|done].
  - destruct (qualifies self r) eqn:Hq.
    + split.
      * intros Hl. apply qualifies_link in Hq as (l & Hl' & _). congruence.
      * inversion 1; congruence.
    + rewrite IH. split; [now constructor|now inversion 1].
Qed.

(** C5: with the reply of the one request at hand, [search_company] gives
    [None] when the status code is not 200; otherwise it gives the link of
    the first organic result, in list order, that has a non-empty link
    passing [_is_valid_domain], and [None] exactly when no result
    qualifies (an empty list, results without link, only blocklisted
    links).  The function is total: nothing raises. *)
Theorem search_company_first_allowed_link
    (post : Request -> Response) (self : CompanySearcher) (name : string) :
  let response := post (build_request self name) in
  (status_code response <> 200%Z -> search_company post self name = None)
  /\ (status_code response = 200%Z ->
      forall l, search_company post self name = Some l <->
        exists before r after,
          organic response = (before ++ r :: after)%list
          /\ Forall (fun r' => qualifies self r' = false) before
          /\ link r = Some l /\ l <> "" /\ _is_valid_domain self l = true)
  /\ (status_code response = 200%Z ->
      (search_company post self name = None <->
       Forall (fun r => qualifies self r = false) (organic response))).
Proof.
  intros response. unfold search_company. fold response.
  destruct (Z.eqb_spec (status_code response) 200) as [He|Hne]; simpl.
  - split; [done|]. split; intros _.
    + intros l. rewrite first_valid_some. split.
      * intros (before & r & after & Heq & Hb & Hq & Hl).
        exists before, r, after. repeat split; auto.
        -- apply qualifies_link in Hq as (l' & Hl' & Hne & Hv). congruence.
        -- apply qualifies_link in Hq as (l' & Hl' & Hne & Hv). congruence.
      * intros (before & r & after & Heq & Hb & Hl & Hne & Hv).
        exists before, r, after. repeat split; auto.
        apply qualifies_link. eauto.
    + apply first_valid_none.
  - split; [done|]. split; intros; congruence.
Qed.

(** The replies used by the repository's tests. *)
Example search_skips_blocklisted :
  search_company
    (fun _ => mkResponse 200 [mkResult (Some "https://linkedin.com/company");
                              mkResult None;
                              mkResult (Some "https://company.com")])
    (init None) "Valid Company" = Some "https://company.com".
Proof. reflexivity. Qed.

Example search_failed_request :
  search_company (fun _ => mkResponse 404 [mkResult (Some "https://company.com")])
                 (init None) "Failed Company" = None.
Proof. reflexivity. Qed.

End SearchFacts.

(** ** Running a computation step by step *)

Module EffectFacts.

Lemma run_eta {S A} (r : Run S A) :
  mkRun (final r) (trace r) (outcome r) = r.
Proof. now destruct r. Qed.

Lemma bind_get {S B} (f : S -> M S B) (s : S) : bind Effects.get f s = f s s.
Proof. unfold bind, Effects.get. cbn [outcome final trace app]. apply run_eta. Qed.

Lemma bind_put {S B} (s' : S) (f : unit -> M S B) (s : S) :
  bind (Effects.put s') f s = f tt s'.
Proof. unfold bind, Effects.put. cbn [outcome final trace app]. apply run_eta. Qed.

Lemma bind_lift_Ok {S A B} (a : A) (f : A -> M S B) (s : S) :
  bind (lift (Ok a)) f s = f a s.
Proof. unfold bind, lift. cbn [outcome final trace app]. apply run_eta. Qed.

Lemma bind_lift_Raise {S A B} (e : exn) (f : A -> M S B) (s : S) :
  bind (lift (Raise e)) f s = mkRun s [] (Raise e).
Proof. reflexivity. Qed.

Lemma bind_emit {S B} (ev : Event) (f : unit -> M S B) (s : S) :
  bind (emit ev) f s
  = mkRun (final (f tt s)) (ev :: trace (f tt s)) (outcome (f tt s)).
Proof. reflexivity. Qed.

Lemma bind_run {S A B} (m : M S A) (f : A -> M S B) (s : S) :
  bind m f s =
  match outcome (m s) with
  | Ok a => mkRun (final (f a (final (m s))))
                  (trace (m s) ++ trace (f a (final (m s))))%list
                  (outcome (f a (final (m s))))
  | Raise e => mkRun (final (m s)) (trace (m s)) (Raise e)
  end.
Proof. reflexivity. Qed.

End EffectFacts.

(** ** Text *)

Module TextFacts.
Import Text.

Lemma chars_of_chars l : chars (of_chars l) = l.
Proof. apply list_ascii_of_string_of_list_ascii. Qed.

Lemma of_chars_chars s : of_chars (chars s) = s.
Proof. apply string_of_list_ascii_of_string. Qed.

Lemma of_chars_inj l1 l2 : of_chars l1 = of_chars l2 -> l1 = l2.
Proof.
  intros H. rewrite <- (chars_of_chars l1), <- (chars_of_chars l2).
  now rewrite H.
Qed.

Lemma is_empty_of_chars l : is_empty (of_chars l) = true <-> l = [].
Proof. destruct l; simpl; split; congruence. Qed.

(** Facts about single characters are settled by going through all 256. *)
Ltac all_chars c :=
  destruct c as [[] [] [] [] [] [] [] []]; vm_compute; try reflexivity;
  try discriminate; auto.

Lemma upper_char_whitespace c :
  is_whitespace (upper_char c) = is_whitespace c.
Proof. all_chars c. Qed.

Lemma upper_char_idem c : upper_char (upper_char c) = upper_char c.
Proof. all_chars c. Qed.

Lemma digit_not_whitespace c : is_digit c = true -> is_whitespace c = false.
Proof. all_chars c. Qed.

(** *** [drop_while], [take_while] *)

Lemma take_drop_while p l : (take_while p l ++ drop_while p l)%list = l.
Proof.
  induction l as [|c l IH]; simpl; [done|].
  destruct (p c); simpl; [now rewrite IH|done].
Qed.

Lemma take_while_all p l : forallb p (take_while p l) = true.
Proof.
  induction l as [|c l IH]; simpl; [done|].
  destruct (p c) eqn:Hc; simpl; [now rewrite Hc|done].
Qed.

Lemma forallb_rev (p : ascii -> bool) l : forallb p (rev l) = forallb p l.
Proof.
  induction l as [|c l IH]; simpl; [done|].
  rewrite forallb_app, IH. simpl. rewrite andb_true_r. apply andb_comm.
Qed.

Lemma drop_while_starts_clean l : starts_clean (drop_while is_whitespace l).
Proof.
  induction l as [|c l IH]; simpl; [done|].
  destruct (is_whitespace c) eqn:Hc; simpl; done.
Qed.

Lemma starts_clean_drop_while l :
  starts_clean l -> drop_while is_whitespace l = l.
Proof. destruct l as [|c l]; simpl; [done|]. now intros ->. Qed.

Lemma starts_clean_prefix l1 l2 :
  starts_clean (l1 ++ l2) -> starts_clean l1.
Proof. destruct l1; simpl; auto. Qed.

Lemma strip_list_stripped l : stripped (strip_list l).
Proof.
  unfold strip_list, stripped.
  set (a := drop_while is_whitespace l).
  set (b := drop_while is_whitespace (rev a)).
  split.
  - assert (Ha : starts_clean a) by apply drop_while_starts_clean.
    assert (Hsplit : a = (rev b ++ rev (take_while is_whitespace (rev a)))%list).
    { rewrite <- rev_app_distr. unfold b. rewrite take_drop_while.
      now rewrite rev_involutive. }
    rewrite Hsplit in Ha. eapply starts_clean_prefix, Ha.
  - rewrite rev_involutive. apply drop_while_starts_clean.
Qed.

Lemma stripped_strip_list l : stripped l -> strip_list l = l.
Proof.
  intros [H1 H2]. unfold strip_list.
  rewrite (starts_clean_drop_while l H1), (starts_clean_drop_while _ H2).
  apply rev_involutive.
Qed.

Lemma strip_list_idem l : strip_list (strip_list l) = strip_list l.
Proof. apply stripped_strip_list, strip_list_stripped. Qed.

(** What stripping removes is white space, on both sides. *)
Lemma strip_list_split l :
  exists left right,
    l = (left ++ strip_list l ++ right)%list
    /\ forallb is_whitespace left = true
    /\ forallb is_whitespace right = true.
Proof.
  set (a := drop_while is_whitespace l).
  exists (take_while is_whitespace l),
         (rev (take_while is_whitespace (rev a))).
  repeat split.
  - unfold strip_list. fold a. rewrite <- rev_app_distr, take_drop_while.
    rewrite rev_involutive. unfold a. now rewrite take_drop_while.
  - apply take_while_all.
  - rewrite forallb_rev. apply take_while_all.
Qed.

Lemma strip_chars_idem s : strip_chars (strip_chars s) = strip_chars s.
Proof.
  unfold strip_chars. now rewrite chars_of_chars, strip_list_idem.
Qed.

Lemma drop_while_map_upper l :
  drop_while is_whitespace (map upper_char l)
  = map upper_char (drop_while is_whitespace l).
Proof.
  induction l as [|c l IH]; simpl; [done|].
  rewrite upper_char_whitespace. now destruct (is_whitespace c).
Qed.

Lemma strip_list_map_upper l :
  strip_list (map upper_char l) = map upper_char (strip_list l).
Proof.
  unfold strip_list.
  now rewrite drop_while_map_upper, <- map_rev, drop_while_map_upper,
    <- map_rev.
Qed.

Lemma strip_to_uppercase s :
  strip_chars (to_uppercase s) = to_uppercase (strip_chars s).
Proof.
  unfold strip_chars, to_uppercase.
  now rewrite !chars_of_chars, strip_list_map_upper.
Qed.

Lemma to_uppercase_idem s : to_uppercase (to_uppercase s) = to_uppercase s.
Proof.
  unfold to_uppercase. rewrite chars_of_chars, map_map. f_equal.
  apply map_ext. intros c. apply upper_char_idem.
Qed.

Lemma is_empty_to_uppercase s : is_empty (to_uppercase s) = is_empty s.
Proof.
  unfold to_uppercase. rewrite <- (of_chars_chars s) at 2.
  destruct (chars s); reflexivity.
Qed.

Lemma all_digits_stripped l :
  forallb is_digit l = true -> stripped l.
Proof.
  intros H. split.
  - destruct l as [|c l]; simpl in *; [done|].
    apply andb_true_iff in H as [Hc _]. now apply digit_not_whitespace.
  - rewrite <- forallb_rev in H.
    destruct (rev l) as [|c l']; simpl in *; [done|].
    apply andb_true_iff in H as [Hc _]. now apply digit_not_whitespace.
Qed.

End TextFacts.

(** ** Frames and the two regular expressions *)

Module PolarsFacts.
Import Text Polars TextFacts.

Lemma five_digits_here_spec l :
  five_digits_here l = true <-> digits_at l 0 (take 5 l).
Proof.
  unfold five_digits_here, digits_at. rewrite andb_true_iff, Nat.eqb_eq.
  simpl. tauto.
Qed.

Lemma digits_at_0 l m : digits_at l 0 m -> five_digits_here l = true /\ m = take 5 l.
Proof.
  intros (Ht & Hl & Hd). simpl in Ht. subst m. split; [|done].
  now apply five_digits_here_spec.
Qed.

Lemma digits_at_cons c l k m : digits_at (c :: l) (S k) m <-> digits_at l k m.
Proof. reflexivity. Qed.

Lemma digits_at_nil k m : ~ digits_at [] k m.
Proof.
  intros (Ht & Hl & _). rewrite drop_nil, take_nil in Ht. now subst m.
Qed.

(** [str.extract] finds the leftmost five digits in a row. *)
Lemma extract_5_digits_some l m :
  extract_5_digits l = Some m <->
  exists k, digits_at l k m /\ forall j m', j < k -> ~ digits_at l j m'.
Proof.
  induction l as [|c l IH].
  - simpl. split; [done|]. intros (k & H & _). now apply digits_at_nil in H.
  - cbn [extract_5_digits]. destruct (five_digits_here (c :: l)) eqn:Hh.
    + split.
      * intros [= <-]. exists 0. split; [now apply five_digits_here_spec|lia].
      * intros (k & Hk & Hmin). destruct k as [|k].
        -- apply digits_at_0 in Hk as [_ ->]. done.
        -- exfalso. apply (Hmin 0 (take 5 (c :: l))); [lia|].
           now apply five_digits_here_spec.
    + rewrite IH. split.
      * intros (k & Hk & Hmin). exists (S k). split; [done|].
        intros [|j] m' Hj Hm'.
        -- apply digits_at_0 in Hm' as [Hm' _]. congruence.
        -- apply (Hmin j m'); [lia|done].
      * intros (k & Hk & Hmin). destruct k as [|k].
        -- apply digits_at_0 in Hk as [Hk _]. congruence.
        -- exists k. split; [done|]. intros j m' Hj Hm'.
           apply (Hmin (S j) m'); [lia|done].
Qed.

Lemma extract_5_digits_none l :
  extract_5_digits l = None <-> forall k m, ~ digits_at l k m.
Proof.
  induction l as [|c l IH].
  - simpl. split; [|done]. intros _ k m. apply digits_at_nil.
  - cbn [extract_5_digits]. destruct (five_digits_here (c :: l)) eqn:Hh.
    + split; [done|]. intros H. exfalso.
      apply (H 0 (take 5 (c :: l))). now apply five_digits_here_spec.
    + rewrite IH. split.
      * intros H [|k] m Hm.
        -- apply digits_at_0 in Hm as [Hm _]. congruence.
        -- now apply (H k m).
      * intros H k m Hm. now apply (H (S k) m).
Qed.

Lemma extract_5_digits_shape l m :
  extract_5_digits l = Some m -> length m = 5 /\ forallb is_digit m = true.
Proof. intros (k & (_ & Hl & Hd) & _)%extract_5_digits_some. done. Qed.

Lemma extract_5_digits_fixed m :
  length m = 5 -> forallb is_digit m = true -> extract_5_digits m = Some m.
Proof.
  intros Hl Hd. apply extract_5_digits_some. exists 0. split; [|lia].
  repeat split; [|done..]. simpl. apply firstn_all2. lia.
Qed.

(** *** Columns by name *)

Lemma columns_map_columns g df : columns (map_columns g df) = columns df.
Proof. unfold columns, map_columns. rewrite map_map. now apply map_ext. Qed.

Lemma get_column_map_columns g df name :
  get_column (map_columns g df) name = g name <$> get_column df name.
Proof.
  induction df as [|[n s] df IH]; simpl; [done|].
  case_bool_decide; subst; simpl; done.
Qed.

Lemma map_columns_compose g1 g2 df :
  map_columns g2 (map_columns g1 df)
  = map_columns (fun n s => g2 n (g1 n s)) df.
Proof. unfold map_columns. rewrite map_map. now apply map_ext. Qed.

Lemma map_columns_ext g1 g2 df :
  (forall n s, (n, s) ∈ df -> g1 n s = g2 n s) ->
  map_columns g1 df = map_columns g2 df.
Proof.
  intros H. unfold map_columns. apply map_ext_in. intros [n s] Hin.
  simpl. f_equal. apply H. now apply list_elem_of_In.
Qed.

Lemma get_column_unique df n s :
  unique_columns df -> (n, s) ∈ df -> get_column df n = Some s.
Proof.
  unfold unique_columns, columns.
  induction df as [|[m t] df IH]; intros Hu Hin; [now apply elem_of_nil in Hin|].
  simpl in *. apply NoDup_cons in Hu as [Hm Hu].
  apply elem_of_cons in Hin as [[= -> ->]|Hin].
  - now rewrite bool_decide_eq_true_2.
  - case_bool_decide; [|auto]. subst m. exfalso. apply Hm.
    apply list_elem_of_fmap. now exists (n, s).
Qed.


Lemma get_column_is_Some df n : is_Some (get_column df n) <-> n ∈ columns df.
Proof.
  unfold columns. induction df as [|[m t] df IH]; simpl.
  - split; [intros [? ?]; done|]. intros H. now apply elem_of_nil in H.
  - rewrite elem_of_cons. case_bool_decide; subst.
    + split; eauto.
    + rewrite IH. split; [auto|]. intros [?|?]; congruence.
Qed.

(** [with_columns] with names that are all in the frame touches each
    column on its own. *)
Lemma with_column_override df new :
  new.1 ∈ columns df -> with_column df new = map_columns (override [new]) df.
Proof.
  intros Hin. unfold with_column. rewrite bool_decide_eq_true_2 by done.
  unfold map_columns. apply map_ext. intros [n s]. simpl.
  destruct new as [m t]. simpl. repeat case_bool_decide; subst; done.
Qed.

Lemma with_columns_override df news :
  Forall (fun new => new.1 ∈ columns df) news ->
  with_columns df news = map_columns (override news) df.
Proof.
  unfold with_columns. revert df.
  induction news as [|new news IH]; intros df Hall; simpl.
  - unfold map_columns. rewrite <- (map_id df) at 1. apply map_ext.
    now intros [n s].
  - apply Forall_cons in Hall as [Hnew Hall].
    rewrite with_column_override by done. rewrite IH.
    + now rewrite map_columns_compose.
    + rewrite columns_map_columns. done.
Qed.

(** When every replacement called [name] carries the same column [v], the
    outcome for [name] is [v], or the old column when there is none. *)
Lemma override_agree news name old v :
  Forall (fun new => new.1 = name -> new.2 = v) news ->
  override news name old
  = if bool_decide (name ∈ map fst news) then v else old.
Proof.
  unfold override. revert old.
  induction news as [|[m t] news IH]; intros old Hall; simpl; [done|].
  apply Forall_cons in Hall as [Hnew Hall]. simpl in Hnew.
  rewrite IH by done.
  destruct (decide (name ∈ map fst news)) as [Hin|Hin].
  - rewrite !bool_decide_eq_true_2; [done| |done]. apply elem_of_cons. auto.
  - rewrite (bool_decide_eq_false_2 _ Hin).
    destruct (decide (m = name)) as [->|Hne].
    + rewrite !bool_decide_eq_true_2; [auto| |done]. apply elem_of_cons. auto.
    + rewrite !bool_decide_eq_false_2; [done| |done].
      rewrite elem_of_cons. intros [?|?]; congruence.
Qed.

End PolarsFacts.

(** ** [clean_data] *)

Module CleanFacts.
Import Text Polars PathLib CsvHandler TextFacts PolarsFacts.

Lemma elem_of_string_cols df n :
  n ∈ string_cols df <->
  n ∈ columns df /\ exists vs, get_column df n = Some (Utf8 vs).
Proof.
  unfold string_cols. rewrite !list_elem_of_In, filter_In. split.
  - intros [Hin Hs]. split; [done|].
    destruct (get_column df n) as [[vs|vs]|]; try done. eauto.
  - intros [Hin (vs & ->)]. done.
Qed.

Lemma elem_of_first_pass_exprs df new :
  new ∈ first_pass_exprs df <->
  new.1 ∈ columns df /\
  exists vs, get_column df new.1 = Some (Utf8 vs)
             /\ new.2 = Utf8 (map strip_or_null vs).
Proof.
  unfold first_pass_exprs. rewrite list_elem_of_omap. split.
  - intros (col & [Hin _]%elem_of_string_cols & Hcol).
    destruct (get_column df col) as [[vs|vs]|] eqn:Hg; try done.
    injection Hcol as <-. simpl. eauto.
  - intros (Hin & vs & Hg & Hv). exists new.1. split.
    + apply elem_of_string_cols. eauto.
    + rewrite Hg. destruct new as [n s]. simpl in *. now subst s.
Qed.

(** The first [with_columns] of [clean_data] strips every text column and
    leaves the others alone. *)
Lemma first_pass_strips df :
  unique_columns df ->
  with_columns df (first_pass_exprs df)
  = map_columns (fun _ s => strip_column s) df.
Proof.
  intros Hu. rewrite with_columns_override.
  2:{ apply Forall_forall. intros new Hin.
      now apply elem_of_first_pass_exprs in Hin as [Hin _]. }
  apply map_columns_ext. intros n s Hns.
  pose proof (get_column_unique df n s Hu Hns) as Hg.
  rewrite (override_agree _ _ _ (strip_column s)).
  - case_bool_decide as Hin; [done|].
    destruct s as [vs|vs]; [|done]. exfalso. apply Hin.
    apply list_elem_of_fmap. exists (n, Utf8 (map strip_or_null vs)).
    split; [done|]. apply elem_of_first_pass_exprs. simpl. split; [|eauto].
    apply list_elem_of_fmap. now exists (n, Utf8 vs).
  - apply Forall_forall. intros new Hin Hname.
    apply elem_of_first_pass_exprs in Hin as (_ & vs & Hg' & ->).
    rewrite Hname, Hg in Hg'. now injection Hg' as ->.
Qed.

(** [clean_data] raises when the state column is missing or not text, or
    when the ZIP column is missing; otherwise it is [Clean]. *)
Lemma clean_data_spec df :
  unique_columns df ->
  clean_data df =
  match get_column df "State" with
  | None => Raise (ColumnNotFoundError "State")
  | Some (Int64 _) =>
      Raise (SchemaError "invalid series dtype: expected `String`, got `i64`")
  | Some (Utf8 _) =>
      match get_column df "ZIP Code" with
      | None => Raise (ColumnNotFoundError "ZIP Code")
      | Some _ => Ok (Clean df)
      end
  end.
Proof.
  intros Hu. unfold clean_data. rewrite (first_pass_strips df Hu).
  unfold pl_col. rewrite !get_column_map_columns.
  destruct (get_column df "State") as [[st|st]|] eqn:Hst; cbn [fmap option_fmap option_map rbind strip_column str_to_uppercase]; try done.
  destruct (get_column df "ZIP Code") as [zp|] eqn:Hzp; cbn [fmap option_fmap option_map rbind]; [|done].
  f_equal. rewrite with_columns_override.
  2:{ rewrite columns_map_columns.
      apply Forall_cons; split; [|apply Forall_cons; split; [|by constructor]];
        simpl; apply get_column_is_Some; eauto. }
  rewrite map_columns_compose. apply map_columns_ext. intros n s Hns.
  pose proof (get_column_unique df n s Hu Hns) as Hg.
  unfold override, clean_column. simpl.
  rewrite (bool_decide_ext ("ZIP Code" = n) (n = "ZIP Code")) by done.
  rewrite (bool_decide_ext ("State" = n) (n = "State")) by done.
  repeat case_bool_decide; subst; try done.
  - rewrite Hzp in Hg. now injection Hg as ->.
  - rewrite Hst in Hg. now injection Hg as <-.
Qed.

(** *** Cells *)

Lemma strip_or_null_some v t :
  strip_or_null v = Some t ->
  exists s, v = Some s /\ t = strip_chars s /\ t <> "".
Proof.
  destruct v as [s|]; simpl; [|done].
  destruct (is_empty (strip_chars s)) eqn:He; [done|].
  intros [= <-]. exists s. repeat split. intros Hs. now rewrite Hs in He.
Qed.

Lemma strip_or_null_fixed t :
  stripped (chars t) -> t <> "" -> strip_or_null (Some t) = Some t.
Proof.
  intros Hs Hne. simpl. unfold strip_chars.
  rewrite (stripped_strip_list _ Hs), of_chars_chars.
  destruct t; [done|reflexivity].
Qed.

Lemma strip_or_null_idem v : strip_or_null (strip_or_null v) = strip_or_null v.
Proof.
  destruct (strip_or_null v) as [t|] eqn:Hv; [|done].
  apply strip_or_null_some in Hv as (s & -> & -> & Hne).
  apply strip_or_null_fixed; [|done].
  unfold strip_chars. rewrite chars_of_chars. apply strip_list_stripped.
Qed.

Lemma strip_or_null_upper v :
  strip_or_null (to_uppercase <$> strip_or_null v)
  = to_uppercase <$> strip_or_null v.
Proof.
  destruct (strip_or_null v) as [t|] eqn:Hv; [|done].
  apply strip_or_null_some in Hv as (s & -> & -> & Hne). simpl.
  rewrite strip_to_uppercase, strip_chars_idem, is_empty_to_uppercase.
  destruct (strip_chars s); [done|reflexivity].
Qed.

Lemma strip_or_null_zip (v : option string) :
  strip_or_null (v ≫= str_extract_zip) = v ≫= str_extract_zip.
Proof.
  destruct v as [s|]; [|done]. simpl. unfold str_extract_zip.
  destruct (extract_5_digits (chars s)) as [m|] eqn:Hm; [|done].
  apply extract_5_digits_shape in Hm as [Hl Hd].
  cbn [fmap option_fmap option_map]. apply strip_or_null_fixed.
  - rewrite chars_of_chars. now apply all_digits_stripped.
  - destruct m; [done|]. simpl. done.
Qed.

Lemma extract_zip_fixed (v : option string) :
  (v ≫= str_extract_zip) ≫= str_extract_zip = v ≫= str_extract_zip.
Proof.
  destruct v as [s|]; [|done]. simpl. unfold str_extract_zip.
  destruct (extract_5_digits (chars s)) as [m|] eqn:Hm; [|done].
  apply extract_5_digits_shape in Hm as [Hl Hd]. simpl.
  now rewrite chars_of_chars, extract_5_digits_fixed.
Qed.

Lemma to_uppercase_cell_idem (v : option string) :
  to_uppercase <$> (to_uppercase <$> v) = to_uppercase <$> v.
Proof. destruct v; simpl; [|done]. now rewrite to_uppercase_idem. Qed.

(** *** Columns *)

Lemma strip_column_idem s : strip_column (strip_column s) = strip_column s.
Proof.
  destruct s as [vs|vs]; simpl; [|done]. rewrite map_map. f_equal.
  apply map_ext, strip_or_null_idem.
Qed.

Lemma clean_column_idem n s :
  clean_column n (clean_column n s) = clean_column n s.
Proof.
  unfold clean_column. repeat case_bool_decide.
  - unfold extract_zip. cbn [strip_column cast_str].
    rewrite !map_map. f_equal. apply map_ext. intros v.
    now rewrite strip_or_null_zip, extract_zip_fixed.
  - destruct s as [vs|vs]; simpl; [|done]. rewrite !map_map. f_equal.
    apply map_ext. intros v.
    now rewrite strip_or_null_upper, to_uppercase_cell_idem.
  - apply strip_column_idem.
Qed.

Lemma Clean_idem df : Clean (Clean df) = Clean df.
Proof.
  unfold Clean. rewrite map_columns_compose. apply map_columns_ext.
  intros n s _. apply clean_column_idem.
Qed.

Lemma clean_data_Clean df :
  unique_columns df ->
  (exists vs, get_column df "State" = Some (Utf8 vs)) ->
  is_Some (get_column df "ZIP Code") ->
  clean_data df = Ok (Clean df).
Proof.
  intros Hu [vs Hst] [zp Hzp]. now rewrite clean_data_spec, Hst, Hzp.
Qed.

Lemma clean_data_Ok df df' :
  unique_columns df ->
  clean_data df = Ok df' ->
  df' = Clean df
  /\ (exists vs, get_column df "State" = Some (Utf8 vs))
  /\ is_Some (get_column df "ZIP Code").
Proof.
  intros Hu. rewrite clean_data_spec by done.
  destruct (get_column df "State") as [[st|st]|]; try done.
  destruct (get_column df "ZIP Code") as [zp|]; [|done].
  intros [= <-]. eauto.
Qed.

Lemma Clean_unique df : unique_columns df -> unique_columns (Clean df).
Proof. unfold unique_columns, Clean. now rewrite columns_map_columns. Qed.

End CleanFacts.

(** ** The code against the wording of the specification *)

Module WordingFacts.
Import Text Polars CsvHandler Wording.
Import TextFacts PolarsFacts CleanFacts.

(** *** Classes of characters *)

Lemma is_whitespace_chars c :
  is_whitespace c = bool_decide (c ∈ whitespace_chars).
Proof. all_chars c. Qed.

Lemma is_digit_chars c : is_digit c = bool_decide (c ∈ digit_chars).
Proof. all_chars c. Qed.

Lemma whitespace_iff c : is_whitespace c = true <-> c ∈ whitespace_chars.
Proof. rewrite is_whitespace_chars. apply bool_decide_eq_true. Qed.

Lemma not_whitespace_iff c : is_whitespace c = false <-> c ∉ whitespace_chars.
Proof. rewrite is_whitespace_chars. apply bool_decide_eq_false. Qed.

Lemma digit_iff c : is_digit c = true <-> c ∈ digit_chars.
Proof. rewrite is_digit_chars. apply bool_decide_eq_true. Qed.

Lemma blank_iff l : forallb is_whitespace l = true <-> blank l.
Proof.
  unfold blank. rewrite forallb_forall, Forall_forall. split.
  - intros H c Hc. apply whitespace_iff, H. now apply list_elem_of_In.
  - intros H c Hc. apply whitespace_iff, H. now apply list_elem_of_In.
Qed.

Lemma all_digits_iff l : forallb is_digit l = true <-> all_digits l.
Proof.
  unfold all_digits. rewrite forallb_forall, Forall_forall. split.
  - intros H c Hc. apply digit_iff, H. now apply list_elem_of_In.
  - intros H c Hc. apply digit_iff, H. now apply list_elem_of_In.
Qed.

#[local] Instance upper_of_dec c c' : Decision (upper_of c c').
Proof. unfold upper_of. apply _. Defined.

Lemma upper_char_upper_of c : upper_of c (upper_char c).
Proof.
  apply (bool_decide_unpack _).
  destruct c as [[] [] [] [] [] [] [] []]; vm_compute; exact I.
Qed.

Lemma to_uppercase_upper_text t : upper_text t (to_uppercase t).
Proof.
  unfold upper_text, to_uppercase. rewrite chars_of_chars.
  induction (chars t) as [|c l IH]; simpl; constructor; [|done].
  apply upper_char_upper_of.
Qed.

(** *** Stripping *)

Lemma starts_clean_head l :
  starts_clean l <-> forall c, head l = Some c -> c ∉ whitespace_chars.
Proof.
  destruct l as [|a l]; simpl.
  - split; [done|auto].
  - rewrite not_whitespace_iff. split.
    + now intros H c [= <-].
    + intros H. now apply H.
Qed.

Lemma head_rev {A} (l : list A) : head (rev l) = last l.
Proof.
  induction l as [|a l IH] using rev_ind; [done|].
  rewrite rev_unit, last_snoc. reflexivity.
Qed.

Lemma stripped_trimmed l : stripped l <-> trimmed l.
Proof.
  unfold stripped, trimmed. rewrite !starts_clean_head, head_rev. tauto.
Qed.

Lemma strip_or_null_cell v : strip_cell v (strip_or_null v).
Proof.
  destruct v as [x|]; [|reflexivity]. cbn [strip_cell].
  destruct (strip_list_split (chars x)) as (l & r & Heq & Hl & Hr).
  destruct (strip_or_null (Some x)) as [t|] eqn:Ht.
  - apply strip_or_null_some in Ht as (s & [= <-] & -> & Hne).
    split; [done|]. unfold strip_chars in *. rewrite chars_of_chars.
    split; [apply stripped_trimmed, strip_list_stripped|].
    exists l, r. now rewrite <- !blank_iff.
  - simpl in Ht. destruct (is_empty (strip_chars x)) eqn:He; [|done].
    apply is_empty_of_chars in He. rewrite He in Heq. simpl in Heq.
    unfold stripped_to. rewrite Heq. apply blank_iff.
    rewrite forallb_app, Hl, Hr. reflexivity.
Qed.

(** *** Five digits *)

Lemma digit_run_iff l k m : digits_at l k m <-> digit_run l k m.
Proof. unfold digits_at, digit_run. now rewrite all_digits_iff. Qed.

Lemma str_extract_zip_first t : first_five_digits t (str_extract_zip t).
Proof.
  unfold str_extract_zip, first_five_digits.
  destruct (extract_5_digits (chars t)) as [m|] eqn:Hm; simpl.
  - rewrite chars_of_chars.
    apply extract_5_digits_some in Hm as (k & Hk & Hmin).
    exists k. split; [now apply digit_run_iff|].
    intros j m' Hj Hrun. apply (Hmin j m' Hj). now apply digit_run_iff.
  - intros k m Hrun. apply digit_run_iff in Hrun.
    exact (proj1 (extract_5_digits_none _) Hm k m Hrun).
Qed.

(** *** Columns *)

Lemma Forall2_map_image {A B} (R : A -> B -> Prop) (f : A -> B) l :
  (forall a, R a (f a)) -> Forall2 R l (map f l).
Proof. intros H. induction l; simpl; constructor; auto. Qed.

Lemma zip_cell_code v :
  zip_cell v (strip_or_null v ≫= str_extract_zip).
Proof.
  exists (strip_or_null v). split; [apply strip_or_null_cell|].
  destruct (strip_or_null v) as [t|]; [|reflexivity].
  apply str_extract_zip_first.
Qed.

Lemma state_cell_code v :
  state_cell v (to_uppercase <$> strip_or_null v).
Proof.
  exists (strip_or_null v). split; [apply strip_or_null_cell|].
  destruct (strip_or_null v) as [t|]; simpl; constructor.
  apply to_uppercase_upper_text.
Qed.

Lemma integer_zip_cell_code (v : option Z) :
  integer_zip_cell v ((z ← v; Some (pretty z)) ≫= str_extract_zip).
Proof.
  destruct v as [z|]; [|reflexivity]. apply str_extract_zip_first.
Qed.

(** The column that [clean_data] leaves is a cleaned column in the words
    of the specification. *)
Lemma clean_column_cleaned n s :
  (n = "State" -> is_utf8 s = true) ->
  cleaned_column n s (clean_column n s).
Proof.
  intros Hst. unfold cleaned_column, clean_column.
  destruct s as [vs|zs]; cbn [strip_column].
  - destruct (decide (n = "ZIP Code")) as [Hz|Hz].
    + rewrite bool_decide_eq_true_2 by done. unfold extract_zip.
      cbn [cast_str]. rewrite map_map. eexists. split; [reflexivity|].
      apply Forall2_map_image, zip_cell_code.
    + rewrite bool_decide_eq_false_2 by done.
      destruct (decide (n = "State")) as [Hs|Hs].
      * rewrite bool_decide_eq_true_2 by done. cbn [uppercase_column].
        rewrite map_map. eexists. split; [reflexivity|].
        apply Forall2_map_image, state_cell_code.
      * rewrite bool_decide_eq_false_2 by done.
        eexists. split; [reflexivity|].
        apply Forall2_map_image, strip_or_null_cell.
  - destruct (decide (n = "ZIP Code")) as [Hz|Hz].
    + rewrite bool_decide_eq_true_2 by done. unfold extract_zip.
      cbn [cast_str]. rewrite map_map. eexists. split; [reflexivity|].
      apply Forall2_map_image, integer_zip_cell_code.
    + rewrite bool_decide_eq_false_2 by done.
      destruct (decide (n = "State")) as [Hs|Hs].
      * now specialize (Hst Hs).
      * now rewrite bool_decide_eq_false_2 by done.
Qed.

(** *** Only the code's result answers the description *)

Lemma drop_while_blank l r :
  blank l -> starts_clean r -> drop_while is_whitespace (l ++ r) = r.
Proof.
  intros Hl Hr. induction Hl as [|c l Hc Hl IH]; simpl.
  - now apply starts_clean_drop_while.
  - apply whitespace_iff in Hc. now rewrite Hc.
Qed.

Lemma blank_rev l : blank l -> blank (rev l).
Proof. intros H. apply blank_iff. rewrite forallb_rev. now apply blank_iff. Qed.

Lemma strip_list_between left t right :
  blank left -> blank right -> t <> [] -> trimmed t ->
  strip_list (left ++ t ++ right) = t.
Proof.
  intros Hl Hr Hne Ht. apply stripped_trimmed in Ht as [Hs He].
  unfold strip_list. rewrite drop_while_blank; [|done|].
  - rewrite rev_app_distr, drop_while_blank; [|now apply blank_rev|done].
    apply rev_involutive.
  - destruct t; [done|exact Hs].
Qed.

Lemma strip_list_blank l : blank l -> strip_list l = [].
Proof.
  intros Hl. unfold strip_list.
  rewrite <- (app_nil_r l), drop_while_blank; done.
Qed.

Lemma strip_cell_only v w : strip_cell v w -> w = strip_or_null v.
Proof.
  destruct v as [x|]; [|done]. cbn [strip_cell strip_or_null].
  unfold strip_chars. destruct w as [t|]; simpl.
  - intros (Hne & Ht & left & right & -> & Hl & Hr).
    rewrite strip_list_between, of_chars_chars; try done.
    + destruct t; [done|reflexivity].
    + intros Hc. apply Hne. now rewrite <- (of_chars_chars t), Hc.
  - intros Hb. now rewrite strip_list_blank.
Qed.

Lemma zip_letters_upper_char :
  Forall (fun p => p.2 = upper_char p.1) (zip lower_letters upper_letters).
Proof. apply (bool_decide_unpack _). vm_compute. exact I. Qed.

Lemma not_lower_upper_char c : c ∉ lower_letters -> upper_char c = c.
Proof.
  intros Hc.
  assert (bool_decide (c ∈ lower_letters) = false) as Hb
    by now apply bool_decide_eq_false_2.
  clear Hc. revert Hb.
  destruct c as [[] [] [] [] [] [] [] []]; vm_compute; congruence.
Qed.

Lemma upper_of_only c c' : upper_of c c' -> c' = upper_char c.
Proof.
  intros [Hin|[Hn ->]].
  - exact (proj1 (Forall_forall _ _) zip_letters_upper_char _ Hin).
  - symmetry. now apply not_lower_upper_char.
Qed.

Lemma Forall2_map_only {A B} (R : A -> B -> Prop) (f : A -> B) l l' :
  (forall a b, R a b -> b = f a) -> Forall2 R l l' -> l' = map f l.
Proof.
  intros H HF. induction HF as [|a b l l' Hab _ IH]; simpl; [done|].
  now rewrite (H a b Hab), IH.
Qed.

Lemma upper_text_only t t' : upper_text t t' -> t' = to_uppercase t.
Proof.
  intros H. apply (Forall2_map_only _ upper_char) in H; [|apply upper_of_only].
  unfold to_uppercase. now rewrite <- H, of_chars_chars.
Qed.

Lemma state_cell_only v w :
  state_cell v w -> w = to_uppercase <$> strip_or_null v.
Proof.
  intros (u & Hu & Hw). apply strip_cell_only in Hu as ->.
  destruct Hw as [t t' Ht|]; simpl; [|done].
  now rewrite (upper_text_only t t' Ht).
Qed.

Lemma first_five_digits_only t w :
  first_five_digits t w -> w = str_extract_zip t.
Proof.
  unfold first_five_digits, str_extract_zip. destruct w as [z|].
  - intros (k & Hk & Hmin).
    assert (extract_5_digits (chars t) = Some (chars z)) as ->.
    { apply extract_5_digits_some. exists k. split; [now apply digit_run_iff|].
      intros j m Hj Hm. apply (Hmin j m Hj). now apply digit_run_iff. }
    simpl. now rewrite of_chars_chars.
  - intros Hnone.
    assert (extract_5_digits (chars t) = None) as ->; [|done].
    apply extract_5_digits_none. intros k m Hm.
    apply (Hnone k m). now apply digit_run_iff.
Qed.

Lemma zip_cell_only v w :
  zip_cell v w -> w = strip_or_null v ≫= str_extract_zip.
Proof.
  intros (u & Hu & Hw). apply strip_cell_only in Hu as ->.
  destruct (strip_or_null v) as [t|]; [|done].
  now apply first_five_digits_only.
Qed.

Lemma integer_zip_cell_only (v : option Z) w :
  integer_zip_cell v w -> w = (z ← v; Some (pretty z)) ≫= str_extract_zip.
Proof. destruct v as [z|]; [|done]. apply first_five_digits_only. Qed.

Lemma cleaned_column_only n s s' :
  cleaned_column n s s' -> s' = clean_column n s.
Proof.
  unfold cleaned_column, clean_column.
  destruct s as [vs|zs]; cbn [strip_column].
  - intros (ws & -> & HF). destruct (decide (n = "ZIP Code")) as [Hz|Hz].
    + rewrite bool_decide_eq_true_2 by done. unfold extract_zip.
      cbn [cast_str]. rewrite map_map. f_equal.
      eapply Forall2_map_only, HF. apply zip_cell_only.
    + rewrite bool_decide_eq_false_2 by done.
      destruct (decide (n = "State")) as [Hs|Hs].
      * rewrite bool_decide_eq_true_2 by done. cbn [uppercase_column].
        rewrite map_map. f_equal.
        eapply Forall2_map_only, HF. apply state_cell_only.
      * rewrite bool_decide_eq_false_2 by done. f_equal.
        eapply Forall2_map_only, HF. apply strip_cell_only.
  - destruct (decide (n = "ZIP Code")) as [Hz|Hz].
    + intros (ws & -> & HF).
      rewrite bool_decide_eq_true_2 by done. unfold extract_zip.
      cbn [cast_str]. rewrite map_map. f_equal.
      eapply Forall2_map_only, HF. apply integer_zip_cell_only.
    + intros ->. rewrite bool_decide_eq_false_2 by done.
      now destruct (bool_decide (n = "State")).
Qed.

(** *** Counting *)

Lemma counted_filter {A} (P : A -> Prop) (p : A -> bool) l :
  (forall x, p x = true <-> P x) ->
  counted P l (length (List.filter p l)).
Proof.
  intros Hp. induction l as [|x l IH]; simpl; [constructor|].
  destruct (p x) eqn:Hx; simpl.
  - apply counted_yes; [now apply Hp|done].
  - apply counted_no; [|done]. rewrite <- Hp. congruence.
Qed.

Lemma counted_functional {A} (P : A -> Prop) l n m :
  counted P l n -> counted P l m -> n = m.
Proof.
  intros Hn. revert m. induction Hn; intros m Hm; inversion Hm; subst;
    try done; auto.
Qed.

Lemma null_cells_null_count s : null_cells s (null_count s).
Proof.
  destruct s as [vs|zs]; simpl; apply counted_filter; intros [x|]; done.
Qed.

Lemma null_cells_unique s k : null_cells s k -> k = null_count s.
Proof.
  intros Hk. pose proof (null_cells_null_count s) as Hn.
  destruct s; simpl in *; eapply counted_functional; eassumption.
Qed.

End WordingFacts.

Module CleanTheorems.
Import Text Polars PathLib CsvHandler Fixtures Wording.
Import TextFacts PolarsFacts CleanFacts WordingFacts.

Lemma unique_columns_decide df :
  bool_decide (NoDup (columns df)) = true -> unique_columns df.
Proof. apply bool_decide_eq_true_1. Qed.

(** C4: on a frame of ASCII text with distinct column names, a text
    column [State] and a column [ZIP Code], [clean_data] returns a frame
    with the same columns in which every column is the cleaned column of
    the specification, and nothing else is: each text cell is stripped of
    the white space at its two ends and is null when nothing is left, a
    state cell is in addition put in upper case with null staying null,
    and a ZIP cell is the leftmost five digits in a row of the stripped
    text, or of the decimal notation of an integer, and null when there
    are none.  The samples of the specification and the frame of
    [test_clean_data] come out as they are written there. *)
Theorem clean_data_normalises (df : DataFrame) :
  unique_columns df ->
  ascii_only df = true ->
  (exists vs, get_column df "State" = Some (Utf8 vs)) ->
  is_Some (get_column df "ZIP Code") ->
  (exists cleaned,
      clean_data df = Ok cleaned
      /\ columns cleaned = columns df
      /\ (forall n s, (n, s) ∈ df ->
            exists s', get_column cleaned n = Some s'
                       /\ cleaned_column n s s'
                       /\ forall s'', cleaned_column n s s'' -> s'' = s'))
  /\ clean_data spec_samples
     = Ok [("State", Utf8 [Some "CA"; None; Some "NY"; Some "TX"]);
           ("ZIP Code", Utf8 [Some "94105"; None; None; Some "94105"])]
  /\ clean_data dirty_data = Ok dirty_data_cleaned.
Proof.
  intros Hu _ Hst Hzp. split; [|split; reflexivity].
  exists (Clean df). split; [now apply clean_data_Clean|]. split.
  - apply columns_map_columns.
  - intros n s Hns. exists (clean_column n s).
    unfold Clean. rewrite get_column_map_columns.
    rewrite (get_column_unique df n s Hu Hns). split; [reflexivity|].
    split; [|apply cleaned_column_only].
    apply clean_column_cleaned. intros ->.
    destruct Hst as [vs Hvs].
    rewrite (get_column_unique df _ s Hu Hns) in Hvs. now injection Hvs as ->.
Qed.

Lemma clean_data_normalises_witness :
  exists cleaned,
    clean_data dirty_data = Ok cleaned
    /\ columns cleaned = columns dirty_data
    /\ (forall n s, (n, s) ∈ dirty_data ->
          exists s', get_column cleaned n = Some s'
                     /\ cleaned_column n s s'
                     /\ forall s'', cleaned_column n s s'' -> s'' = s').
Proof.
  apply (clean_data_normalises dirty_data).
  - apply unique_columns_decide. vm_compute. reflexivity.
  - vm_compute. reflexivity.
  - eexists. reflexivity.
  - eexists. reflexivity.
Defined.

(** C8: [clean_data] is idempotent.  Cleaning the frame it returned
    returns that frame again; when it raises there is nothing to clean a
    second time, and the exception is the result on both sides. *)
Theorem clean_data_idempotent (df : DataFrame) :
  unique_columns df ->
  rbind (clean_data df) clean_data = clean_data df
  /\ (forall cleaned, clean_data df = Ok cleaned ->
                      clean_data cleaned = Ok cleaned).
Proof.
  intros Hu.
  assert (forall cleaned, clean_data df = Ok cleaned ->
                          clean_data cleaned = Ok cleaned) as Hok.
  { intros cleaned (-> & [vs Hst] & [zp Hzp])%clean_data_Ok; [|done].
    rewrite <- (Clean_idem df) at 2. apply clean_data_Clean.
    - now apply Clean_unique.
    - unfold Clean. rewrite get_column_map_columns, Hst.
      unfold clean_column. simpl. eauto.
    - unfold Clean. rewrite get_column_map_columns, Hzp. simpl. eauto. }
  split; [|done].
  destruct (clean_data df) as [cleaned|e] eqn:Hc; simpl; [auto|done].
Qed.

Lemma clean_data_idempotent_witness :
  rbind (clean_data dirty_data) clean_data = clean_data dirty_data
  /\ (forall cleaned, clean_data dirty_data = Ok cleaned ->
                      clean_data cleaned = Ok cleaned).
Proof.
  apply (clean_data_idempotent dirty_data).
  apply unique_columns_decide. vm_compute. reflexivity.
Defined.

(** The integer ZIP column becomes text on the first cleaning and stays
    as it is on the second. *)
Example clean_integer_zip_twice :
  clean_data valid_csv_file = Ok valid_csv_data
  /\ rbind (clean_data valid_csv_file) clean_data = Ok valid_csv_data.
Proof. split; vm_compute; reflexivity. Qed.

End CleanTheorems.

(** ** Error messages: what a text contains *)

Module MessageFacts.
Import Text TextFacts.

Lemma append_cons c s1 s2 : String c s1 ++ s2 = String c (s1 ++ s2).
Proof. reflexivity. Qed.

Lemma chars_append s1 s2 : chars (s1 ++ s2) = (chars s1 ++ chars s2)%list.
Proof.
  induction s1 as [|c s1 IH]; [done|].
  rewrite append_cons. simpl. now rewrite <- IH.
Qed.

Lemma of_chars_app l1 l2 : of_chars (l1 ++ l2) = of_chars l1 ++ of_chars l2.
Proof.
  induction l1 as [|c l1 IH]; [done|].
  simpl. now rewrite append_cons, <- IH.
Qed.

Lemma starts_with_app p l : starts_with p (p ++ l) = true.
Proof.
  induction p as [|c p IH]; simpl; [done|].
  now rewrite bool_decide_eq_true_2.
Qed.

Lemma starts_with_prefix p l :
  starts_with p l = true -> exists after, l = (p ++ after)%list.
Proof.
  revert l. induction p as [|c p IH]; intros l H; [now exists l|].
  destruct l as [|d l]; [done|]. simpl in H.
  apply andb_true_iff in H as [Hc Hp]. apply bool_decide_eq_true_1 in Hc.
  destruct (IH l Hp) as [after ->]. exists after. now subst.
Qed.

Lemma occurs_in_start p l : starts_with p l = true -> occurs_in p l = true.
Proof. intros H. destruct l; simpl; rewrite H; done. Qed.

Lemma occurs_in_middle p before after :
  occurs_in p (before ++ p ++ after) = true.
Proof.
  induction before as [|c before IH]; simpl.
  - apply occurs_in_start, starts_with_app.
  - rewrite IH. apply orb_true_r.
Qed.

(** [needle in haystack] says that the haystack is some text, the needle,
    and some more text. *)
Lemma occurs_in_spec p l :
  occurs_in p l = true <-> exists before after, l = (before ++ p ++ after)%list.
Proof.
  split; [|intros (b & a & ->); apply occurs_in_middle].
  induction l as [|c l IH]; simpl.
  - rewrite orb_false_r. intros [after ->]%starts_with_prefix. now exists [], after.
  - intros [H|H]%orb_true_iff.
    + apply starts_with_prefix in H as [after ->]. now exists [], after.
    + destruct (IH H) as (b & a & ->). now exists (c :: b), a.
Qed.

Lemma contains_spec needle haystack :
  contains needle haystack = true <->
  exists before after, haystack = before ++ needle ++ after.
Proof.
  unfold contains. rewrite occurs_in_spec. split.
  - intros (b & a & H). exists (of_chars b), (of_chars a).
    rewrite <- (of_chars_chars haystack), H, !of_chars_app.
    now rewrite of_chars_chars.
  - intros (b & a & ->). exists (chars b), (chars a).
    now rewrite !chars_append.
Qed.

Lemma append_assoc (a b c : string) : (a ++ b) ++ c = a ++ b ++ c.
Proof.
  induction a as [|x a IH]; [done|]. now rewrite !append_cons, IH.
Qed.

Lemma append_empty_r (a : string) : a ++ "" = a.
Proof. induction a as [|x a IH]; [done|]. now rewrite append_cons, IH. Qed.

Lemma contains_inside needle before middle after :
  contains needle middle = true ->
  contains needle (before ++ middle ++ after) = true.
Proof.
  rewrite !contains_spec. intros (b & a & ->).
  exists (before ++ b), (a ++ after). now rewrite !append_assoc.
Qed.

Lemma join_cons sep p q parts :
  join sep (p :: q :: parts) = p ++ sep ++ join sep (q :: parts).
Proof. reflexivity. Qed.

Lemma contains_tail needle before middle :
  contains needle middle = true ->
  contains needle (before ++ middle) = true.
Proof.
  intros H. rewrite <- (append_empty_r middle). now apply contains_inside.
Qed.

(** Every part occurs in the joined text. *)
Lemma contains_join sep parts x :
  x ∈ parts -> contains x (join sep parts) = true.
Proof.
  induction parts as [|p parts IH]; intros Hin; [now apply elem_of_nil in Hin|].
  apply elem_of_cons in Hin as [->|Hin].
  - apply contains_spec. exists "".
    destruct parts as [|q parts].
    + exists "". simpl. now rewrite append_empty_r.
    + rewrite join_cons. now exists (sep ++ join sep (q :: parts)).
  - destruct parts as [|q parts]; [now apply elem_of_nil in Hin|].
    rewrite join_cons. specialize (IH Hin).
    apply contains_spec in IH as (b & a & ->).
    apply contains_spec. exists (p ++ sep ++ b), a.
    now rewrite !append_assoc.
Qed.

End MessageFacts.

(** ** The two validations *)

Module ValidationTheorems.
Import Text Polars PathLib CsvHandler Fixtures Wording.
Import TextFacts PolarsFacts MessageFacts WordingFacts.

Lemma missing_columns_spec df c :
  c ∈ missing_columns df <-> c ∈ REQUIRED_COLUMNS /\ c ∉ columns df.
Proof.
  unfold missing_columns. now rewrite elem_of_difference, elem_of_list_to_set.
Qed.

Lemma missing_columns_empty df :
  missing_columns df = ∅ <-> forall c, c ∈ REQUIRED_COLUMNS -> c ∈ columns df.
Proof.
  split.
  - intros He c Hc. destruct (decide (c ∈ columns df)) as [|Hn]; [assumption|].
    exfalso. apply (not_elem_of_empty (C:=gset string) c). rewrite <- He.
    apply missing_columns_spec. split; assumption.
  - intros H. apply set_eq. intros c. rewrite missing_columns_spec.
    split.
    + intros [Hc Hn]. exfalso. apply Hn, H, Hc.
    + intros Hc. exfalso. exact (not_elem_of_empty c Hc).
Qed.

Lemma validate_columns_Ok df :
  validate_columns df = Ok tt <-> missing_columns df = ∅.
Proof.
  unfold validate_columns.
  destruct (elements (missing_columns df)) as [|c l] eqn:He.
  - split; [|done]. intros _. now apply leibniz_equiv, elements_empty_iff.
  - split; [done|]. intros H. rewrite H, elements_empty in He. done.
Qed.

Lemma contains_refl s : contains s s = true.
Proof. apply contains_spec. exists "", "". now rewrite append_empty_r. Qed.

Lemma contains_trans a b c :
  contains a b = true -> contains b c = true -> contains a c = true.
Proof.
  rewrite !contains_spec. intros (b1 & a1 & ->) (b2 & a2 & ->).
  exists (b2 ++ b1), (a1 ++ a2). now rewrite !append_assoc.
Qed.

Lemma contains_quoted c : contains c ("'" ++ c ++ "'") = true.
Proof. apply contains_inside, contains_refl. Qed.

Lemma required_columns_list c :
  c ∈ REQUIRED_COLUMNS
  <-> c ∈ ["Company Name"; "Parent Company Name"; "Executive First Name";
           "Executive Last Name"; "Address"; "City"; "State"; "ZIP Code";
           "Legal Name"; "Record Type"].
Proof.
  unfold REQUIRED_COLUMNS.
  rewrite !elem_of_union, !elem_of_singleton, !elem_of_cons, elem_of_nil.
  tauto.
Qed.

(** C7: [validate_columns] raises [CSVValidationError] exactly when one
    of the ten required columns, which are named here, is not among the
    frame's columns, and returns exactly when all ten are there, whatever
    else the frame holds; the message is [Missing required columns: ]
    followed by the set of the missing names, each once and in quotes, so
    that every missing name can be read in it, in whatever order the set
    is printed; the verdict is a function of the column names, and the
    check returns nothing else: the frame is not touched. *)
Theorem validate_columns_schema (df : DataFrame) :
  let required :=
    ["Company Name"; "Parent Company Name"; "Executive First Name";
     "Executive Last Name"; "Address"; "City"; "State"; "ZIP Code";
     "Legal Name"; "Record Type"] in
  let message order :=
    "Missing required columns: "
    ++ "{" ++ join ", " (map (fun c => "'" ++ c ++ "'") order) ++ "}" in
  (forall c, c ∈ REQUIRED_COLUMNS <-> c ∈ required)
  /\ ((exists msg, validate_columns df = Raise (CSVValidationError msg))
      <-> exists c, c ∈ required /\ c ∉ columns df)
  /\ (validate_columns df = Ok tt
      <-> forall c, c ∈ required -> c ∈ columns df)
  /\ (forall e, validate_columns df = Raise e ->
        exists order,
          e = CSVValidationError (message order)
          /\ NoDup order
          /\ forall c, c ∈ order <-> c ∈ required /\ c ∉ columns df)
  /\ (forall msg c,
        validate_columns df = Raise (CSVValidationError msg) ->
        c ∈ required -> c ∉ columns df ->
        contains c msg = true)
  /\ (forall order c, c ∈ order -> contains c (message order) = true)
  /\ (forall df', columns df' = columns df ->
                  validate_columns df' = validate_columns df)
  /\ validate_columns extra_column_data = Ok tt
  /\ validate_columns (drop 1 valid_csv_data)
     = Raise (CSVValidationError "Missing required columns: {'Company Name'}").
Proof.
  intros required message.
  assert (forall c, c ∈ missing_columns df
                    <-> c ∈ required /\ c ∉ columns df) as Hmiss.
  { intros c. rewrite missing_columns_spec, required_columns_list. done. }
  assert (forall order c, c ∈ order -> contains c (message order) = true)
    as Hshown.
  { intros order c Hc. unfold message.
    apply contains_tail. apply (contains_inside _ "{" _ "}").
    apply (contains_trans _ ("'" ++ c ++ "'")); [apply contains_quoted|].
    apply contains_join, list_elem_of_fmap. now exists c. }
  assert (forall e, validate_columns df = Raise e ->
            e = CSVValidationError (message (elements (missing_columns df))))
    as Hmsg.
  { unfold validate_columns. intros e.
    destruct (elements (missing_columns df)); [done|]. now intros [= <-]. }
  assert (missing_columns df = ∅
          <-> forall c, c ∈ required -> c ∈ columns df) as Hnone.
  { rewrite missing_columns_empty. split; intros H c Hc.
    - now apply H, required_columns_list.
    - now apply H, required_columns_list. }
  split; [apply required_columns_list|].
  split.
  { split.
    - intros [msg Hr].
      destruct (elements (missing_columns df)) as [|c l] eqn:He.
      + unfold validate_columns in Hr. now rewrite He in Hr.
      + exists c. apply Hmiss, elem_of_elements. rewrite He.
        apply elem_of_cons. auto.
    - intros (c & Hc & Hn).
      destruct (validate_columns df) as [[]|e] eqn:Hv.
      + apply validate_columns_Ok in Hv. exfalso.
        exact (Hn (proj1 Hnone Hv c Hc)).
      + rewrite (Hmsg e eq_refl). eauto. }
  split; [now rewrite validate_columns_Ok|].
  split.
  { intros e He. exists (elements (missing_columns df)).
    split; [now apply Hmsg|]. split; [apply NoDup_elements|].
    intros c. now rewrite elem_of_elements. }
  split.
  { intros msg c Hr Hc Hn. apply Hmsg in Hr. injection Hr as ->.
    apply Hshown, elem_of_elements, Hmiss. done. }
  split; [exact Hshown|].
  split.
  { intros df' Hc. unfold validate_columns, missing_columns. now rewrite Hc. }
  split; vm_compute; reflexivity.
Qed.

(** The fixtures of the tests, and a frame with an extra column. *)
Example validate_columns_fixtures :
  validate_columns valid_csv_data = Ok tt
  /\ validate_columns extra_column_data = Ok tt
  /\ validate_columns (drop 2 valid_csv_data)
     = Raise (CSVValidationError
                "Missing required columns: {'Company Name', 'Parent Company Name'}").
Proof. repeat split; vm_compute; reflexivity. Qed.

(** *** [validate_data_types] *)

Lemma all_present_decide (names : list string) df :
  forallb (fun c => bool_decide (c ∈ columns df)) names = true ->
  forall c, c ∈ names -> c ∈ columns df.
Proof.
  rewrite forallb_forall. intros H c Hc.
  apply list_elem_of_In, H in Hc. now apply bool_decide_eq_true_1 in Hc.
Qed.

Lemma select_null_counts_present df cols :
  (forall c, c ∈ cols -> c ∈ columns df) ->
  select_null_counts df cols = Ok (map (required_null_count df) cols).
Proof.
  induction cols as [|col cols IH]; intros Hall; simpl; [done|].
  assert (is_Some (get_column df col)) as [s Hs].
  { apply get_column_is_Some, Hall, elem_of_cons. auto. }
  unfold pl_col, required_null_count. rewrite Hs. simpl.
  rewrite IH; [done|]. intros c Hc. apply Hall, elem_of_cons. auto.
Qed.

Lemma zip_with_image {A B} (f : A -> B) (l : list A) :
  zip l (map f l) = map (fun a => (a, f a)) l.
Proof. induction l as [|a l IH]; simpl; [done|]. now rewrite IH. Qed.

Lemma null_fields_offending df :
  null_fields (map (required_null_count df) required_non_null)
  = map null_field_text (offending_fields df).
Proof. unfold null_fields, offending_fields. now rewrite zip_with_image. Qed.

Lemma validate_data_types_run df self :
  (forall c, c ∈ required_non_null -> c ∈ columns df) ->
  validate_data_types df self =
  match offending_fields df with
  | [] => mkRun self (zip_warnings df) (Ok tt)
  | _ :: _ =>
      mkRun self []
        (Raise (CSVValidationError
                  ("Null values found in required fields: "
                   ++ join ", " (map null_field_text (offending_fields df)))))
  end.
Proof.
  intros Hall. unfold validate_data_types, bind, lift.
  rewrite (select_null_counts_present df _ Hall).
  cbn [outcome final trace]. rewrite null_fields_offending.
  destruct (offending_fields df) as [|cc rest]; [|reflexivity].
  cbn [map]. unfold zip_warnings, pl_col.
  assert (is_Some (get_column df "ZIP Code")) as [zips ->].
  { apply get_column_is_Some, Hall. unfold required_non_null.
    repeat (apply elem_of_cons; first [by left|right]). }
  cbn [outcome final trace]. unfold emit, ret.
  destruct (0 <? invalid_zips zips)%nat; reflexivity.
Qed.

Lemma elem_of_offending_fields df c k :
  (c, k) ∈ offending_fields df <->
  c ∈ required_non_null /\ k = required_null_count df c /\ 0 < k.
Proof.
  unfold offending_fields. rewrite list_elem_of_In, filter_In.
  rewrite <- list_elem_of_In, list_elem_of_fmap. simpl.
  rewrite Nat.ltb_lt. split.
  - intros [(c' & [= -> ->] & Hc) Hk]. done.
  - intros (Hc & -> & Hk). split; [|done]. now exists c.
Qed.

Lemma offending_fields_nil df :
  offending_fields df = [] <->
  forall c, c ∈ required_non_null -> required_null_count df c = 0.
Proof.
  split.
  - intros He c Hc. destruct (required_null_count df c) as [|k] eqn:Hk; [done|].
    assert ((c, S k) ∈ offending_fields df) as Hin.
    { apply elem_of_offending_fields. split; [done|]. split; [done|lia]. }
    rewrite He in Hin. now apply elem_of_nil in Hin.
  - intros H. destruct (offending_fields df) as [|[c k] rest] eqn:He; [done|].
    assert ((c, k) ∈ offending_fields df) as Hin.
    { rewrite He. apply elem_of_cons. auto. }
    apply elem_of_offending_fields in Hin as (Hc & -> & Hk).
    rewrite (H c Hc) in Hk. lia.
Qed.

(** The pattern [^\d{5}(-\d{4})?$]: five digits, and then nothing or a
    hyphen and four digits. *)
Lemma zip_pattern_spec s :
  zip_pattern s = true <->
  exists five rest,
    chars s = (five ++ rest)%list
    /\ length five = 5 /\ forallb is_digit five = true
    /\ (rest = []
        \/ exists four, rest = ("-"%char :: four)
                        /\ length four = 4 /\ forallb is_digit four = true).
Proof.
  unfold zip_pattern. generalize (chars s). intros l.
  rewrite andb_true_iff, orb_true_iff, !andb_true_iff, !Nat.eqb_eq,
    bool_decide_eq_true.
  split.
  - intros [Hd Hshape]. exists (take 5 l), (drop 5 l).
    split; [now rewrite take_drop|].
    split; [rewrite length_take; destruct Hshape as [?|[[? _] _]]; lia|].
    split; [done|].
    destruct Hshape as [Hl|[[Hl Hh] Hf]].
    + left. apply drop_ge. lia.
    + right. exists (drop 6 l). split; [now apply drop_S|].
      split; [rewrite length_drop; lia|done].
  - intros (five & rest & -> & Hl & Hd & Hrest).
    rewrite take_app_length' by done. split; [done|].
    destruct Hrest as [->|(four & -> & Hl4 & Hd4)].
    + left. rewrite app_nil_r. done.
    + right. rewrite length_app. simpl. repeat split; [lia| |].
      * rewrite lookup_app_r by lia. now rewrite Hl.
      * replace 6 with (length five + 1) by lia.
        now rewrite drop_app_add.
Qed.

Lemma reported_offending df cols :
  (forall c, c ∈ cols -> c ∈ columns df) ->
  reported df cols
    (map null_field_text
       (List.filter (fun cc => (0 <? cc.2)%nat)
          (map (fun col => (col, required_null_count df col)) cols))).
Proof.
  induction cols as [|c cols IH]; intros Hall; [constructor|].
  assert (is_Some (get_column df c)) as [s Hs].
  { apply get_column_is_Some, Hall, elem_of_cons. auto. }
  assert (reported df cols
            (map null_field_text
               (List.filter (fun cc => (0 <? cc.2)%nat)
                  (map (fun col => (col, required_null_count df col)) cols))))
    as Hrest.
  { apply IH. intros c' Hc'. apply Hall, elem_of_cons. auto. }
  assert (required_null_count df c = null_count s) as Hr.
  { unfold required_null_count. now rewrite Hs. }
  cbn [map List.filter snd]. rewrite Hr.
  destruct (0 <? null_count s)%nat eqn:Hk.
  - cbn [map]. unfold null_field_text at 1. cbn [fst snd].
    eapply reported_nulls; [exact Hs|apply null_cells_null_count| |exact Hrest].
    now apply Nat.ltb_lt.
  - eapply reported_clean; [exact Hs| |exact Hrest].
    apply Nat.ltb_ge in Hk.
    replace 0 with (null_count s) by lia. apply null_cells_null_count.
Qed.

Lemma zip_shape_iff z : zip_pattern z = true <-> zip_shape z.
Proof.
  rewrite zip_pattern_spec. unfold zip_shape. split.
  - intros (five & rest & Heq & Hl & Hd & Hrest). exists five, rest.
    split; [done|]. split; [done|]. split; [now apply all_digits_iff|].
    destruct Hrest as [->|(four & -> & Hl4 & Hd4)]; [now left|right].
    exists four. split; [done|]. split; [done|]. now apply all_digits_iff.
  - intros (five & rest & Heq & Hl & Hd & Hrest). exists five, rest.
    split; [done|]. split; [done|]. split; [now apply all_digits_iff|].
    destruct Hrest as [->|(four & -> & Hl4 & Hd4)]; [now left|right].
    exists four. split; [done|]. split; [done|]. now apply all_digits_iff.
Qed.

Lemma zip_texts_cast_str s : zip_texts s = cast_str s.
Proof.
  destruct s as [vs|zs]; simpl; [done|]. apply map_ext. now intros [z|].
Qed.

Lemma counted_invalid_zips zips :
  counted bad_zip (zip_texts zips) (invalid_zips zips).
Proof.
  unfold invalid_zips. rewrite zip_texts_cast_str. apply counted_filter.
  intros [z|]; unfold bad_zip.
  - rewrite negb_true_iff, <- not_true_iff_false, zip_shape_iff. split.
    + intros Hn. now exists z.
    + now intros (z' & [= <-] & Hn).
  - split; [done|]. now intros (z & Hz & _).
Qed.

(** C6: on a frame of ASCII text that has the five required fields,
    named here, as columns, [validate_data_types] raises
    [CSVValidationError] exactly when one of the five holds a null; the
    message is then [Null values found in required fields: ] followed,
    with commas between them, by one entry [field: count] for every
    required field with a null, in the order of the five, where the count
    is the number of null cells of that column; no other error is raised
    and nothing is logged then.  Without nulls the call returns; the rows
    that have a ZIP code which is not five digits, or five digits, a
    hyphen and four digits, are counted, and one warning with their number
    is logged when there are any.  The handler is left as it was. *)
Theorem validate_data_types_content (df : DataFrame) (self : CSVHandler) :
  (forall c, c ∈ ["Company Name"; "Address"; "City"; "State"; "ZIP Code"] ->
             c ∈ columns df) ->
  ascii_only df = true ->
  let required := ["Company Name"; "Address"; "City"; "State"; "ZIP Code"] in
  let r := validate_data_types df self in
  final r = self
  /\ ((exists msg, outcome r = Raise (CSVValidationError msg))
      <-> exists c s k, c ∈ required /\ get_column df c = Some s
                        /\ null_cells s k /\ 0 < k)
  /\ (forall e, outcome r = Raise e ->
        trace r = []
        /\ exists fields,
             e = CSVValidationError
                   ("Null values found in required fields: "
                    ++ join ", " fields)
             /\ reported df required fields)
  /\ (forall msg c s k,
        outcome r = Raise (CSVValidationError msg) ->
        c ∈ required -> get_column df c = Some s ->
        null_cells s k -> 0 < k ->
        contains (c ++ ": " ++ pretty k) msg = true)
  /\ ((forall c s, c ∈ required -> get_column df c = Some s ->
                   null_cells s 0) ->
      outcome r = Ok tt
      /\ exists zips n,
           get_column df "ZIP Code" = Some zips
           /\ counted bad_zip (zip_texts zips) n
           /\ trace r = match n with
                        | 0 => []
                        | S _ => [Log WARNING
                                    ("Found " ++ pretty n
                                     ++ " records with invalid ZIP codes")]
                        end)
  /\ validate_data_types two_and_one_nulls self
     = mkRun self []
         (Raise (CSVValidationError
                   "Null values found in required fields: Company Name: 2, City: 1"))
  /\ validate_data_types unclean_data self
     = mkRun self [Log WARNING "Found 1 records with invalid ZIP codes"]
             (Ok tt).
Proof.
  intros Hall _ required r. subst r.
  rewrite (validate_data_types_run df self Hall).
  assert (forall c s k, get_column df c = Some s -> null_cells s k ->
                        k = required_null_count df c) as Hcount.
  { intros c s k Hs Hk. unfold required_null_count. rewrite Hs.
    now apply null_cells_unique. }
  split; [now destruct (offending_fields df)|].
  split.
  { split.
    - intros [msg Hr]. destruct (offending_fields df) as [|[c k] rest] eqn:He;
        [done|].
      assert ((c, k) ∈ offending_fields df) as Hin
          by (rewrite He; apply elem_of_cons; auto).
      apply elem_of_offending_fields in Hin as (Hc & -> & Hk).
      assert (is_Some (get_column df c)) as [s Hs]
          by now apply get_column_is_Some, Hall.
      exists c, s, (null_count s). split; [exact Hc|]. split; [exact Hs|].
      split; [apply null_cells_null_count|].
      unfold required_null_count in Hk. now rewrite Hs in Hk.
    - intros (c & s & k & Hc & Hs & Hk & Hpos).
      destruct (offending_fields df) as [|cc rest] eqn:He; [|simpl; eauto].
      exfalso. pose proof (proj1 (offending_fields_nil df) He c Hc) as H0.
      rewrite <- (Hcount c s k Hs Hk) in H0. lia. }
  split.
  { intros e. destruct (offending_fields df) as [|cc rest] eqn:He; [done|].
    cbn [outcome trace]. intros [= <-]. split; [reflexivity|].
    exists (map null_field_text (cc :: rest)). split; [reflexivity|].
    rewrite <- He. apply (reported_offending df required Hall). }
  split.
  { intros msg c s k Hr Hc Hs Hk Hpos.
    assert (msg = "Null values found in required fields: "
                  ++ join ", " (map null_field_text (offending_fields df)))
      as ->.
    { destruct (offending_fields df); [done|].
      cbn [outcome] in Hr. injection Hr as <-. reflexivity. }
    apply contains_tail, contains_join, list_elem_of_fmap. exists (c, k).
    split; [reflexivity|]. apply elem_of_offending_fields.
    split; [exact Hc|]. split; [now apply (Hcount c s k)|exact Hpos]. }
  split.
  { intros Hnone.
    assert (offending_fields df = []) as ->.
    { apply offending_fields_nil. intros c Hc.
      assert (is_Some (get_column df c)) as [s Hs]
          by now apply get_column_is_Some, Hall.
      symmetry. apply (Hcount c s 0 Hs). now apply (Hnone c s). }
    split; [reflexivity|]. cbn [trace]. unfold zip_warnings.
    assert (is_Some (get_column df "ZIP Code")) as [zips Hz].
    { apply get_column_is_Some, Hall.
      repeat (apply elem_of_cons; first [by left|right]). }
    rewrite Hz. exists zips, (invalid_zips zips).
    split; [reflexivity|]. split; [apply counted_invalid_zips|].
    now destruct (invalid_zips zips). }
  split; reflexivity.
Qed.

Lemma validate_data_types_content_witness :
  contains "City: 1"
    "Null values found in required fields: Company Name: 1, City: 1" = true
  /\ outcome (validate_data_types invalid_data (init "dummy.csv"))
     = Raise (CSVValidationError
                "Null values found in required fields: Company Name: 1, City: 1").
Proof.
  split; [|reflexivity].
  assert (forall c, c ∈ ["Company Name"; "Address"; "City"; "State"; "ZIP Code"]
                    -> c ∈ columns invalid_data) as Hall.
  { apply all_present_decide. vm_compute. reflexivity. }
  assert (ascii_only invalid_data = true) as Hascii by (vm_compute; reflexivity).
  destruct (validate_data_types_content invalid_data (init "dummy.csv")
              Hall Hascii) as (_ & _ & _ & Hmsg & _).
  apply (Hmsg _ "City" (Utf8 [Some "San Francisco"; None]) 1).
  - reflexivity.
  - apply (proj2 (list_elem_of_In _ _)). simpl. tauto.
  - reflexivity.
  - exact (null_cells_null_count (Utf8 [Some "San Francisco"; None])).
  - lia.
Defined.

(** A ZIP code of the wrong shape is reported and let through. *)
Example validate_data_types_warns :
  validate_data_types unclean_data (init "dummy.csv")
  = mkRun (init "dummy.csv")
          [Log WARNING "Found 1 records with invalid ZIP codes"] (Ok tt).
Proof. reflexivity. Qed.

End ValidationTheorems.

(** ** Loading, converting and saving *)

Module HandlerTheorems.
Import Text Polars PathLib CsvHandler Fixtures.
Import EffectFacts TextFacts PolarsFacts CleanFacts MessageFacts.
Import ValidationTheorems.

Lemma validate_data_types_final df self :
  final (validate_data_types df self) = self.
Proof.
  unfold validate_data_types, bind, lift.
  destruct (select_null_counts df required_non_null) as [counts|e];
    cbn [outcome final trace]; [|done].
  destruct (null_fields counts); cbn [outcome final trace]; [|done].
  destruct (pl_col df "ZIP Code") as [zips|e]; cbn [outcome final trace]; [|done].
  now destruct (0 <? invalid_zips zips)%nat.
Qed.

Lemma set_data_run df (s : CSVHandler) :
  set_data df s = mkRun (mkHandler (file_path s) (Some df)) [] (Ok tt).
Proof. reflexivity. Qed.

Lemma read_and_validate_run fs self :
  read_and_validate fs self =
  let reading := Log INFO ("Reading CSV file: " ++ file_path self) in
  match validate_file_exists fs self with
  | Raise e => load_failed self [] e
  | Ok _ =>
      match scan_csv fs (file_path self) with
      | Raise e => load_failed self [reading] e
      | Ok df =>
          match validate_columns df with
          | Raise e => load_failed self [reading] e
          | Ok _ =>
              let v := validate_data_types df self in
              match outcome v with
              | Raise e => load_failed self (reading :: trace v) e
              | Ok _ =>
                  match clean_data df with
                  | Raise e => load_failed self (reading :: trace v) e
                  | Ok cleaned =>
                      mkRun (mkHandler (file_path self) (Some cleaned))
                            (reading :: trace v ++
                             [Log INFO ("Successfully processed "
                                        ++ pretty (height cleaned)
                                        ++ " records")])%list
                            (Ok cleaned)
                  end
              end
          end
      end
  end.
Proof.
  unfold read_and_validate, reraising, load_failed. cbv zeta.
  rewrite bind_get.
  destruct (validate_file_exists fs self) as [[]|e];
    [rewrite bind_lift_Ok|rewrite bind_lift_Raise; reflexivity].
  rewrite bind_emit. cbn [outcome final trace].
  destruct (scan_csv fs (file_path self)) as [df|e];
    [rewrite bind_lift_Ok|rewrite bind_lift_Raise; reflexivity].
  destruct (validate_columns df) as [[]|e];
    [rewrite bind_lift_Ok|rewrite bind_lift_Raise; reflexivity].
  rewrite bind_run.
  pose proof (validate_data_types_final df self) as Hf.
  destruct (validate_data_types df self) as [s tr [[]|e]];
    cbn [outcome final trace] in *; subst s; [|reflexivity].
  destruct (clean_data df) as [cleaned|e];
    [rewrite bind_lift_Ok|rewrite bind_lift_Raise; cbn [outcome final trace];
                          now rewrite app_nil_r].
  rewrite bind_run, set_data_run. cbn [outcome final trace].
  rewrite bind_emit. cbn [outcome final trace ret app]. reflexivity.
Qed.

Lemma read_and_validate_raise fs self e :
  outcome (read_and_validate fs self) = Raise e ->
  final (read_and_validate fs self) = self.
Proof.
  rewrite read_and_validate_run. cbv zeta.
  destruct (validate_file_exists fs self) as [[]|e1]; [|done].
  destruct (scan_csv fs (file_path self)) as [df|e1]; [|done].
  destruct (validate_columns df) as [[]|e1]; [|done].
  destruct (outcome (validate_data_types df self)) as [[]|e1]; [|done].
  destruct (clean_data df) as [cleaned|e1]; done.
Qed.

Lemma read_and_validate_Ok fs self cleaned :
  outcome (read_and_validate fs self) = Ok cleaned ->
  exists df,
    validate_file_exists fs self = Ok tt
    /\ scan_csv fs (file_path self) = Ok df
    /\ validate_columns df = Ok tt
    /\ outcome (validate_data_types df self) = Ok tt
    /\ clean_data df = Ok cleaned
    /\ final (read_and_validate fs self)
       = mkHandler (file_path self) (Some cleaned).
Proof.
  rewrite read_and_validate_run. cbv zeta.
  destruct (validate_file_exists fs self) as [[]|e1] eqn:H1; [|done].
  destruct (scan_csv fs (file_path self)) as [df|e1] eqn:H2; [|done].
  destruct (validate_columns df) as [[]|e1] eqn:H3; [|done].
  destruct (outcome (validate_data_types df self)) as [[]|e1] eqn:H4; [|done].
  destruct (clean_data df) as [cleaned'|e1] eqn:H5; [|done].
  cbn [outcome final]. intros [= ->]. exists df. repeat split; assumption.
Qed.

Lemma never_loaded_no_data self : never_loaded self -> data self = None.
Proof.
  induction 1 as [path|fs self e Hnever IH Hraise]; [done|].
  now rewrite (read_and_validate_raise fs self e Hraise).
Qed.

Lemma get_company_records_unloaded self :
  data self = None ->
  get_company_records self
  = mkRun self []
      (Raise (ValueError "Data not loaded. Call read_and_validate() first.")).
Proof.
  intros Hd. unfold get_company_records, bind, get. cbn [outcome final trace].
  now rewrite Hd.
Qed.

Lemma save_processed_data_unloaded self out :
  data self = None ->
  save_processed_data out self
  = mkRun self []
      (Raise (ValueError "No data to save. Call read_and_validate() first.")).
Proof.
  intros Hd. unfold save_processed_data, bind, get. cbn [outcome final trace].
  now rewrite Hd.
Qed.

Lemma save_processed_data_loaded self out df :
  data self = Some df ->
  save_processed_data out self
  = mkRun self [WriteCsv out (write_csv df);
                Log INFO ("Saved processed data to " ++ out)] (Ok tt).
Proof.
  intros Hd. unfold save_processed_data, bind, get. cbn [outcome final trace].
  now rewrite Hd.
Qed.

(** C1, as the code has it: on a handler on which no load has succeeded
    yet, [get_company_records] and [save_processed_data] raise
    [ValueError] at once, with no event and no change, however many loads
    have failed before.  A load that raises leaves the handler exactly as
    it was before the call; a load that returns stores the cleaned frame.
    So after an earlier success a failed reload keeps the frame loaded
    before. *)
Theorem unloaded_handler_raises (self : CSVHandler) :
  never_loaded self ->
  get_company_records self
  = mkRun self []
      (Raise (ValueError "Data not loaded. Call read_and_validate() first."))
  /\ (forall out,
        save_processed_data out self
        = mkRun self []
            (Raise (ValueError "No data to save. Call read_and_validate() first.")))
  /\ (forall fs (h : CSVHandler) e,
        outcome (read_and_validate fs h) = Raise e ->
        final (read_and_validate fs h) = h)
  /\ (forall fs (h : CSVHandler) cleaned,
        outcome (read_and_validate fs h) = Ok cleaned ->
        final (read_and_validate fs h) = mkHandler (file_path h) (Some cleaned)).
Proof.
  intros Hd%never_loaded_no_data. repeat apply conj.
  - now apply get_company_records_unloaded.
  - intros out. now apply save_processed_data_unloaded.
  - apply read_and_validate_raise.
  - intros fs h cleaned (df & _ & _ & _ & _ & _ & Hf)%read_and_validate_Ok. done.
Qed.

Lemma unloaded_handler_raises_witness :
  let failed := read_and_validate fs_deleted (init "companies.csv") in
  outcome failed = Raise (FileNotFoundError "CSV file not found at: companies.csv")
  /\ outcome (get_company_records (final failed))
     = Raise (ValueError "Data not loaded. Call read_and_validate() first.")
  /\ outcome (save_processed_data "out.csv" (final failed))
     = Raise (ValueError "No data to save. Call read_and_validate() first.").
Proof.
  intros failed.
  assert (outcome failed
          = Raise (FileNotFoundError "CSV file not found at: companies.csv"))
    as Hfailed by (vm_compute; reflexivity).
  assert (never_loaded (final failed)) as Hnever.
  { eapply never_loaded_failed; [apply never_loaded_init|exact Hfailed]. }
  destruct (unloaded_handler_raises (final failed) Hnever)
    as (Hget & Hsave & _).
  split; [exact Hfailed|]. split.
  - now rewrite Hget.
  - now rewrite (Hsave "out.csv").
Defined.

(** C1, as the claim has it, fails: the valid file is loaded, then it is
    removed and a second load raises; the handler still holds the first
    frame, and both methods work on it instead of raising. *)
Lemma failed_reload_keeps_table :
  let loaded := read_and_validate fs_valid (init "companies.csv") in
  let reloaded := read_and_validate fs_deleted (final loaded) in
  outcome loaded = Ok valid_csv_data
  /\ outcome reloaded
     = Raise (FileNotFoundError "CSV file not found at: companies.csv")
  /\ data (final reloaded) = Some valid_csv_data
  /\ map company_name <$> outcome_value (get_company_records (final reloaded))
     = Some [PyStr "Tech Corp"; PyStr "Data Inc"]
  /\ save_processed_data "out.csv" (final reloaded)
     = mkRun (final reloaded)
             [WriteCsv "out.csv" (write_csv valid_csv_data);
              Log INFO "Saved processed data to out.csv"] (Ok tt).
Proof. repeat apply conj; vm_compute; reflexivity. Qed.

(** C2 at a failing input: a source whose first company name is blank and
    whose second ZIP code is [ABC] has no null in a required field, so both
    validations pass; cleaning comes afterwards and turns the two cells
    into nulls, which the handler stores and hands out as records.  What
    holds is the other half: a cleaned cell is never the empty text. *)
Theorem load_stores_nulls_in_required_fields :
  let loaded := read_and_validate fs_unclean (init "companies.csv") in
  validate_columns unclean_data = Ok tt
  /\ outcome (validate_data_types unclean_data (init "companies.csv")) = Ok tt
  /\ outcome_value loaded = data (final loaded)
  /\ (cleaned ← data (final loaded); get_column cleaned "Company Name")
     = Some (Utf8 [None; Some "Data Inc"])
  /\ (cleaned ← data (final loaded); get_column cleaned "ZIP Code")
     = Some (Utf8 [Some "94105"; None])
  /\ map company_name <$> outcome_value (get_company_records (final loaded))
     = Some [PyNone; PyStr "Data Inc"]
  /\ map zip_code <$> outcome_value (get_company_records (final loaded))
     = Some [PyStr "94105"; PyNone]
  /\ (forall v t, strip_or_null v = Some t -> t <> "").
Proof.
  repeat apply conj; try (vm_compute; reflexivity).
  intros v t (s & _ & _ & Hne)%strip_or_null_some. exact Hne.
Qed.

(** *** Column names survive cleaning *)

Lemma with_columns_same_columns df news :
  Forall (fun new => new.1 ∈ columns df) news ->
  columns (with_columns df news) = columns df.
Proof.
  intros H. now rewrite with_columns_override, columns_map_columns.
Qed.

Lemma pl_col_Ok df name s : pl_col df name = Ok s -> name ∈ columns df.
Proof.
  unfold pl_col. destruct (get_column df name) eqn:Hg; [|done].
  intros _. apply get_column_is_Some. eauto.
Qed.

Lemma clean_data_columns df cleaned :
  clean_data df = Ok cleaned -> columns cleaned = columns df.
Proof.
  unfold clean_data.
  assert (columns (with_columns df (first_pass_exprs df)) = columns df) as H1.
  { apply with_columns_same_columns, Forall_forall. intros new Hin.
    now apply elem_of_first_pass_exprs in Hin as [Hin _]. }
  destruct (pl_col _ "State") as [st|e] eqn:Hst; [|done]. cbn [rbind].
  destruct (str_to_uppercase st) as [st'|e]; [|done]. cbn [rbind].
  destruct (pl_col _ "ZIP Code") as [zp|e] eqn:Hzp; [|done]. cbn [rbind].
  intros [= <-].
  transitivity (columns (with_columns df (first_pass_exprs df))); [|exact H1].
  apply (with_columns_same_columns _ [("State", st'); ("ZIP Code", extract_zip zp)]).
  apply pl_col_Ok in Hst, Hzp.
  apply Forall_cons; split; [done|]. apply Forall_cons; split; [done|].
  by constructor.
Qed.

Lemma length_iter_rows df : length (iter_rows df) = height df.
Proof. unfold iter_rows. now rewrite length_map, length_seq. Qed.

(** C9, as the code has it: after a load that returned, the handler holds
    the cleaned frame, and [save_processed_data] writes that whole frame
    as CSV to the given path, one record per row; the header repeats the
    column names of the source file, in the order of the file.  All ten
    required columns are therefore in the header, and so is every other
    column the file had. *)
Theorem save_writes_loaded_columns
    (fs : FileSystem) (self : CSVHandler) (cleaned : DataFrame) (out : string) :
  outcome (read_and_validate fs self) = Ok cleaned ->
  let loaded := final (read_and_validate fs self) in
  exists source,
    scan_csv fs (file_path self) = Ok source
    /\ data loaded = Some cleaned
    /\ save_processed_data out loaded
       = mkRun loaded [WriteCsv out (write_csv cleaned);
                       Log INFO ("Saved processed data to " ++ out)] (Ok tt)
    /\ header (write_csv cleaned) = columns source
    /\ length (records (write_csv cleaned)) = height cleaned
    /\ (forall c, c ∈ REQUIRED_COLUMNS -> c ∈ header (write_csv cleaned)).
Proof.
  intros (df & _ & Hscan & Hcols & _ & Hclean & Hfinal)%read_and_validate_Ok
         loaded.
  subst loaded. rewrite Hfinal. exists df.
  pose proof (clean_data_columns df cleaned Hclean) as Hsame.
  split; [exact Hscan|]. split; [reflexivity|].
  split; [now apply save_processed_data_loaded|].
  split; [exact Hsame|]. split.
  - unfold write_csv. cbn [records]. now rewrite length_map, length_iter_rows.
  - intros c Hc. cbn [write_csv header]. rewrite Hsame.
    apply validate_columns_Ok in Hcols.
    exact (proj1 (missing_columns_empty df) Hcols c Hc).
Qed.

Lemma save_writes_loaded_columns_witness :
  exists source,
    scan_csv fs_valid "companies.csv" = Ok source
    /\ data (final (read_and_validate fs_valid (init "companies.csv")))
       = Some valid_csv_data
    /\ save_processed_data "out.csv"
         (final (read_and_validate fs_valid (init "companies.csv")))
       = mkRun (final (read_and_validate fs_valid (init "companies.csv")))
               [WriteCsv "out.csv" (write_csv valid_csv_data);
                Log INFO ("Saved processed data to " ++ "out.csv")] (Ok tt)
    /\ header (write_csv valid_csv_data) = columns source
    /\ length (records (write_csv valid_csv_data)) = height valid_csv_data
    /\ (forall c, c ∈ REQUIRED_COLUMNS -> c ∈ header (write_csv valid_csv_data)).
Proof.
  apply (save_writes_loaded_columns fs_valid (init "companies.csv")
           valid_csv_data "out.csv").
  vm_compute. reflexivity.
Defined.

(** C9, as the claim has it, fails: a source with the ten required columns
    and a column [Website] loads, and the header written on saving has
    eleven names, [Website] last. *)
Lemma saved_header_has_extra_column :
  let loaded := read_and_validate fs_extra (init "companies.csv") in
  outcome loaded = Ok extra_column_data
  /\ save_processed_data "out.csv" (final loaded)
     = mkRun (final loaded)
             [WriteCsv "out.csv" (write_csv extra_column_data);
              Log INFO "Saved processed data to out.csv"] (Ok tt)
  /\ header (write_csv extra_column_data) = (ten_columns ++ ["Website"])%list
  /\ length (header (write_csv extra_column_data)) = 11
  /\ elements REQUIRED_COLUMNS ≡ₚ ten_columns.
Proof.
  repeat apply conj; try (vm_compute; reflexivity).
  apply (bool_decide_unpack _). vm_compute. reflexivity.
Qed.

(** *** [validate_file_exists] *)

Ltac lower_preimage c :=
  destruct c as [[] [] [] [] [] [] [] []]; vm_compute;
  intros H; try discriminate H; auto.

Lemma lower_char_dot c : lower_char c = "."%char -> c = "."%char.
Proof. lower_preimage c. Qed.

Lemma lower_char_c c : lower_char c = "c"%char -> c = "c"%char \/ c = "C"%char.
Proof. lower_preimage c. Qed.

Lemma lower_char_s c : lower_char c = "s"%char -> c = "s"%char \/ c = "S"%char.
Proof. lower_preimage c. Qed.

Lemma lower_char_v c : lower_char c = "v"%char -> c = "v"%char \/ c = "V"%char.
Proof. lower_preimage c. Qed.

(** The suffixes that [lower()] turns into [.csv] are the eight ways of
    writing it in upper and lower case. *)
Lemma lower_csv s : lower s = ".csv" <-> s ∈ csv_spellings.
Proof.
  split.
  - unfold lower. intros H.
    apply (f_equal chars) in H. rewrite chars_of_chars in H.
    rewrite <- (of_chars_chars s).
    destruct (chars s) as [|c1 [|c2 [|c3 [|c4 [|c5 l]]]]]; try discriminate H.
    injection H as H1 H2 H3 H4.
    apply lower_char_dot in H1 as ->.
    apply lower_char_c in H2 as [-> | ->];
      apply lower_char_s in H3 as [-> | ->];
      apply lower_char_v in H4 as [-> | ->];
      apply (proj2 (list_elem_of_In _ _)); simpl; tauto.
  - intros H. apply list_elem_of_In in H. simpl in H.
    repeat destruct H as [<-|H]; try reflexivity. done.
Qed.

(** C10: [validate_file_exists] looks at existence first, so a path that
    does not exist raises [FileNotFoundError] whatever its suffix; for an
    existing path it compares the suffix with [.csv] after [lower()], so
    [.csv], [.CSV], [.Csv] and the other spellings in mixed case pass, and
    every other suffix raises [ValueError]. *)
Theorem validate_file_exists_order (fs : FileSystem) (self : CSVHandler) :
  (path_exists fs (file_path self) = false ->
   validate_file_exists fs self
   = Raise (FileNotFoundError ("CSV file not found at: " ++ file_path self)))
  /\ (path_exists fs (file_path self) = true ->
      lower (suffix (file_path self)) = ".csv" ->
      validate_file_exists fs self = Ok tt)
  /\ (path_exists fs (file_path self) = true ->
      lower (suffix (file_path self)) <> ".csv" ->
      validate_file_exists fs self
      = Raise (ValueError ("File must be a CSV file, got: "
                           ++ suffix (file_path self))))
  /\ (path_exists fs (file_path self) = true <-> is_Some (fs !! file_path self))
  /\ (forall s, lower s = ".csv" <-> s ∈ csv_spellings)
  /\ map suffix ["data/companies.CSV"; "Companies.Csv"; "companies.csv";
                 "archive.csv.gz"; "csv"; ".csv"; "notes.txt"]
     = [".CSV"; ".Csv"; ".csv"; ".gz"; ""; ""; ".txt"].
Proof.
  unfold validate_file_exists. repeat apply conj.
  - now intros ->.
  - intros -> Hs. simpl. now rewrite bool_decide_eq_true_2.
  - intros -> Hs. simpl. now rewrite bool_decide_eq_false_2.
  - unfold path_exists. apply bool_decide_eq_true.
  - unfold path_exists. intros H. now apply bool_decide_eq_true.
  - apply lower_csv.
  - vm_compute. reflexivity.
Qed.

(** The three cases on concrete paths. *)
Example validate_file_exists_cases :
  validate_file_exists {[ "data/companies.CSV" := Ok valid_csv_file ]}
                       (init "data/companies.CSV") = Ok tt
  /\ validate_file_exists {[ "Companies.Csv" := Ok valid_csv_file ]}
                          (init "Companies.Csv") = Ok tt
  /\ validate_file_exists fs_valid (init "nonexistent.csv")
     = Raise (FileNotFoundError "CSV file not found at: nonexistent.csv")
  /\ validate_file_exists fs_valid (init "nonexistent.txt")
     = Raise (FileNotFoundError "CSV file not found at: nonexistent.txt")
  /\ validate_file_exists {[ "test.txt" := Ok [] ]} (init "test.txt")
     = Raise (ValueError "File must be a CSV file, got: .txt").
Proof. repeat apply conj; vm_compute; reflexivity. Qed.

End HandlerTheorems.

(** ** Rows into records *)

Module RecordTheorems.
Import Text Polars PathLib CsvHandler Fixtures Coverage.
Import EffectFacts PolarsFacts ValidationTheorems HandlerTheorems.













End RecordTheorems.

(** ** Loading as a whole *)

Module LoadTheorems.
Import Text Polars PathLib CsvHandler Fixtures Wording Coverage.
Import EffectFacts PolarsFacts CleanFacts WordingFacts.
Import ValidationTheorems HandlerTheorems RecordTheorems.

















End LoadTheorems.

(** ** What a cleaned frame looks like *)

Module CleanInvariants.
Import Text Polars PathLib CsvHandler Fixtures Wording Coverage.
Import TextFacts PolarsFacts CleanFacts WordingFacts ValidationTheorems.




























End CleanInvariants.

(** ** Validation without the columns, and the file that is written *)

Module OutputTheorems.
Import Text Polars PathLib CsvHandler Fixtures Wording Coverage.
Import EffectFacts TextFacts PolarsFacts CleanFacts WordingFacts.
Import HandlerTheorems CleanInvariants.












End OutputTheorems.

(** ** The search client, further *)

Module SearchTheorems.
Import Text UrlParse Search Wording SearchFacts.






End SearchTheorems.

(** ** The suffix of a path *)

Module PathTheorems.
Import Text Polars PathLib CsvHandler Fixtures.
Import TextFacts MessageFacts.








End PathTheorems.
